(** * SODA API demo notebook (A1/SODA_API_demo.ipynb): query, fetch, export

    A shallow embedding of the three code cells of the notebook:

    - cell 2/3: [requests.get(bp_endpoint, params=bp_api_params)] followed by
      [bp_request.json()]  (Query Builder and Fetcher);
    - cell 4: the [with open(...) as csv_outfile] block that writes the header
      and one row per element of [bp_data] with [csv.writer]  (CSV Exporter).

    A Python [str] is represented by its UTF-8 encoding (a Rocq [string] is
    a sequence of bytes), which is what the notebook sends in the URL and
    writes to the file.  A [str] that holds a lone surrogate, as [json]
    decodes one from an escape, has no such encoding: it is a value of its
    own kind ([VStrLone]) and writing it to the file fails.  The library
    calls the notebook makes ([PreparedRequest.prepare_url] of requests with
    [parse_url] of urllib3, [json.loads], [csv.writer] with the default excel
    dialect, text files opened with mode 'w') are modelled next to the cell
    that uses them, after the CPython 3.7 the notebook records as its
    kernel. *)

From Stdlib Require Import ZArith Lia Ascii.
From Stdlib Require String.
From stdpp Require Import base option list strings gmap.

Set Warnings "-register-all".

Local Open Scope Z_scope.
Local Open Scope stdpp_scope.

(* stdpp blocks the unfolding of string concatenation; the proofs below
   compute with it. *)
#[local] Arguments String.append !_ _ / : simpl nomatch.

(** ** Characters and strings *)

Definition NUL : ascii := "000"%char.
Definition LF : ascii := "010"%char.
Definition CR : ascii := "013"%char.
Definition DQUOTE : ascii := "034"%char.
Definition COMMA : ascii := ","%char.

Definition BACKSLASH : ascii := "092"%char.

Definition str_of_char (c : ascii) : string := String c "".
Definition CRLF : string := String CR (String LF "").

Definition ascii_eqb (a b : ascii) : bool := bool_decide (a = b).

Fixpoint str_existsb (p : ascii -> bool) (s : string) : bool :=
  match s with
  | EmptyString => false
  | String c r => p c || str_existsb p r
  end.

Fixpoint str_forallb (p : ascii -> bool) (s : string) : bool :=
  match s with
  | EmptyString => true
  | String c r => p c && str_forallb p r
  end.

Definition str_is_empty (s : string) : bool :=
  match s with EmptyString => true | _ => false end.

(** [sep.join(parts)] *)
Fixpoint join (sep : string) (parts : list string) : string :=
  match parts with
  | [] => ""
  | [p] => p
  | p :: ps => p +:+ sep +:+ join sep ps
  end.

Fixpoint concat_str (parts : list string) : string :=
  match parts with
  | [] => ""
  | p :: ps => p +:+ concat_str ps
  end.

(** [ord(c)] and its inverse on bytes. *)
Definition ord (c : ascii) : Z := Z.of_N (N_of_ascii c).

Definition byte (n : Z) : ascii := ascii_of_N (Z.to_N n).

Definition in_range (lo hi : Z) (n : Z) : bool := (lo <=? n) && (n <=? hi).

Definition is_digit (c : ascii) : bool := in_range 48 57 (ord c).

(** [s.startswith(prefix)] *)
Fixpoint starts_with (prefix s : string) : bool :=
  match prefix, s with
  | EmptyString, _ => true
  | String a p, String c r => ascii_eqb a c && starts_with p r
  | String _ _, EmptyString => false
  end.

(** The longest prefix of characters that satisfy [p], and the rest. *)
Fixpoint span (p : ascii -> bool) (s : string) : string * string :=
  match s with
  | EmptyString => ("", "")
  | String c r =>
      if p c then let '(a, b) := span p r in (String c a, b) else ("", s)
  end.

Definition hex_val (c : ascii) : option Z :=
  let n := ord c in
  if in_range 48 57 n then Some (n - 48)
  else if in_range 97 102 n then Some (n - 87)
  else if in_range 65 70 n then Some (n - 55)
  else None.

(** ** Python values, as [json.loads] produces them *)

Module Py.

(** A [float] is kept as the literal it was decoded from; no operation of the
    notebook computes with one.  [VStr s] is a [str] with the UTF-8 encoding
    [s].  [VStrLone s] is a [str] that holds a lone surrogate (U+D800 to
    U+DFFF) and so has no UTF-8 encoding; [s] keeps its code points in the
    same byte form, a surrogate taking the three bytes ED A0..BF 80..BF that
    no UTF-8 text has. *)
Inductive value :=
| VNone
| VBool (b : bool)
| VInt (n : Z)
| VFloat (lexeme : string)
| VStr (s : string)
| VStrLone (s : string)
| VList (items : list value)
| VDict (entries : list (string * value)).

(** The exceptions of the notebook's calls: those of the interpreter, of
    [json] and of requests.  [Unmodelled] is not an exception of Python: it
    marks an input on which this model does not follow the library (see
    [Url.parse_url]), and no statement below concludes anything from it. *)
Inductive exn :=
| KeyError (key : string)
| TypeError (msg : string)
| ValueError (msg : string)
| NameError (name : string)
| JSONDecodeError
| UnicodeEncodeError
| MissingSchema
| InvalidURL
| InvalidSchema
| Unmodelled (what : string).

Inductive result (A : Type) :=
| Ok (a : A)
| Raise (e : exn).
Arguments Ok {A} a.
Arguments Raise {A} e.

Definition is_ok {A} (r : result A) : bool :=
  match r with Ok _ => true | Raise _ => false end.

(** The text holds the bytes of a surrogate. *)
Fixpoint has_surrogate (s : string) : bool :=
  match s with
  | String a ((String b _) as r) =>
      (ascii_eqb a (byte 237) && in_range 160 191 (ord b)) || has_surrogate r
  | _ => false
  end.

Definition is_lone (v : value) : bool :=
  match v with VStrLone _ => true | _ => false end.

(** The [str] with the given code points. *)
Definition mk_str (s : string) : value :=
  if has_surrogate s then VStrLone s else VStr s.

(** A [dict] keeps its keys in insertion order; keys are unique. *)
Fixpoint dict_get (d : list (string * value)) (key : string) : option value :=
  match d with
  | [] => None
  | (k, v) :: d' => if bool_decide (k = key) then Some v else dict_get d' key
  end.

(** [d[key] = v]: an existing key keeps its position. *)
Fixpoint dict_set (d : list (string * value)) (key : string) (v : value)
  : list (string * value) :=
  match d with
  | [] => [(key, v)]
  | (k, w) :: d' =>
      if bool_decide (k = key) then (k, v) :: d' else (k, w) :: dict_set d' key v
  end.

Definition type_name (v : value) : string :=
  match v with
  | VNone => "NoneType"
  | VBool _ => "bool"
  | VInt _ => "int"
  | VFloat _ => "float"
  | VStr _ | VStrLone _ => "str"
  | VList _ => "list"
  | VDict _ => "dict"
  end.

(** [b[key]] for a [str] key. *)
Definition getitem (b : value) (key : string) : result value :=
  match b with
  | VDict d =>
      match dict_get d key with
      | Some v => Ok v
      | None => Raise (KeyError key)
      end
  | VStr _ | VStrLone _ => Raise (TypeError "string indices must be integers")
  | VList _ => Raise (TypeError "list indices must be integers or slices, not str")
  | _ => Raise (TypeError ("'" +:+ type_name b +:+ "' object is not subscriptable"))
  end.

(** The characters of a [str]: a UTF-8 lead byte with its continuation
    bytes (10xxxxxx). *)
Definition is_continuation (c : ascii) : bool :=
  match c with
  | Ascii _ _ _ _ _ _ false true => true
  | _ => false
  end.

Fixpoint take_continuation (s : string) : string * string :=
  match s with
  | EmptyString => ("", "")
  | String c r =>
      if is_continuation c
      then let '(t, rest) := take_continuation r in (String c t, rest)
      else ("", s)
  end.

Fixpoint str_chars_fuel (fuel : nat) (s : string) : list string :=
  match fuel, s with
  | S fuel', String c r =>
      let '(t, rest) := take_continuation r in
      String c t :: str_chars_fuel fuel' rest
  | _, _ => []
  end.

Definition str_chars (s : string) : list string :=
  str_chars_fuel (String.length s) s.

(** [iter(v)], as the [for] statement asks for it, run to the end. *)
Definition iter (v : value) : result (list value) :=
  match v with
  | VList l => Ok l
  | VDict d => Ok (map (fun kv => mk_str (fst kv)) d)
  | VStr s => Ok (map VStr (str_chars s))
  | VStrLone s => Ok (map mk_str (str_chars s))
  | _ => Raise (TypeError ("'" +:+ type_name v +:+ "' object is not iterable"))
  end.

End Py.
Import Py.
(** ** [json.loads], following CPython's [json.decoder] and [_json.c]

    [scanstring] (strict), [_match_number], [_parse_object], [_parse_array]
    and [scan_once]; [None] stands for [JSONDecodeError]. *)

Module Json.

(** WHITESPACE: space, tab, line feed, carriage return. *)
Definition is_ws (c : ascii) : bool :=
  let n := ord c in (n =? 32) || (n =? 9) || (n =? 10) || (n =? 13).

Fixpoint skip_ws (s : string) : string :=
  match s with
  | EmptyString => ""
  | String c r => if is_ws c then skip_ws r else s
  end.

Definition hex4 (a b c d : ascii) : option Z :=
  match hex_val a, hex_val b, hex_val c, hex_val d with
  | Some x, Some y, Some z, Some w => Some (((x * 16 + y) * 16 + z) * 16 + w)
  | _, _, _, _ => None
  end.

(** The UTF-8 bytes of a code point; a surrogate takes the three-byte
    form, which [mk_str] recognises. *)
Definition utf8_encode (cp : Z) : string :=
  let cont n := byte (128 + Z.land n 63) in
  if cp <? 128 then String (byte cp) ""
  else if cp <? 2048 then
    String (byte (192 + Z.shiftr cp 6)) (String (cont cp) "")
  else if cp <? 65536 then
    String (byte (224 + Z.shiftr cp 12))
      (String (cont (Z.shiftr cp 6)) (String (cont cp) ""))
  else
    String (byte (240 + Z.shiftr cp 18))
      (String (cont (Z.shiftr cp 12))
         (String (cont (Z.shiftr cp 6)) (String (cont cp) ""))).

Definition is_high_surrogate (cp : Z) : bool := in_range 55296 56319 cp.
Definition is_low_surrogate (cp : Z) : bool := in_range 56320 57343 cp.

Definition combine_surrogates (hi lo : Z) : Z :=
  65536 + Z.lor (Z.shiftl (hi - 55296) 10) (lo - 56320).

(** The character a one-letter escape stands for. *)
Definition simple_escape (e : ascii) : option ascii :=
  if ascii_eqb e DQUOTE then Some DQUOTE
  else if ascii_eqb e BACKSLASH then Some BACKSLASH
  else if ascii_eqb e "/" then Some "/"%char
  else if ascii_eqb e "b" then Some (byte 8)
  else if ascii_eqb e "f" then Some (byte 12)
  else if ascii_eqb e "n" then Some LF
  else if ascii_eqb e "r" then Some CR
  else if ascii_eqb e "t" then Some (byte 9)
  else None.

Definition emit (prefix : string) (r : option (string * string))
  : option (string * string) :=
  match r with
  | Some (body, rest) => Some (prefix +:+ body, rest)
  | None => None
  end.

Definition pending_text (pending : option Z) : string :=
  match pending with
  | Some hi => utf8_encode hi
  | None => ""
  end.

(** [scanstring], from the character after the opening quote: the decoded
    string and the text after the closing quote.  [pending] is a high
    surrogate read from the escape just before, waiting for its low half. *)
Fixpoint scanstring (pending : option Z) (s : string) : option (string * string) :=
  match s with
  | EmptyString => None
  | String c r =>
      if ascii_eqb c BACKSLASH then
        match r with
        | EmptyString => None
        | String e r1 =>
            if ascii_eqb e "u" then
              match r1 with
              | String h1 (String h2 (String h3 (String h4 r5))) =>
                  match hex4 h1 h2 h3 h4 with
                  | Some cp =>
                      match pending with
                      | Some hi =>
                          if is_low_surrogate cp
                          then emit (utf8_encode (combine_surrogates hi cp))
                                 (scanstring None r5)
                          else if is_high_surrogate cp
                          then emit (utf8_encode hi) (scanstring (Some cp) r5)
                          else emit (utf8_encode hi +:+ utf8_encode cp)
                                 (scanstring None r5)
                      | None =>
                          if is_high_surrogate cp
                          then scanstring (Some cp) r5
                          else emit (utf8_encode cp) (scanstring None r5)
                      end
                  | None => None
                  end
              | _ => None
              end
            else
              match simple_escape e with
              | Some ch =>
                  emit (pending_text pending +:+ str_of_char ch)
                    (scanstring None r1)
              | None => None
              end
        end
      else if ascii_eqb c DQUOTE then Some (pending_text pending, r)
      else if ord c <? 32 then None
      else emit (pending_text pending +:+ str_of_char c) (scanstring None r)
  end.

Fixpoint take_digits (s : string) : string * string :=
  match s with
  | EmptyString => ("", "")
  | String c r =>
      if is_digit c
      then let '(ds, rest) := take_digits r in (String c ds, rest)
      else ("", s)
  end.

Fixpoint decimal (acc : Z) (ds : string) : Z :=
  match ds with
  | EmptyString => acc
  | String c r => decimal (acc * 10 + (ord c - 48)) r
  end.

(** The integer part: an optional minus sign, then a single 0 or a nonzero
    digit followed by digits. *)
Definition match_int (s : string) : option (string * string) :=
  let '(sign, body) :=
    match s with
    | String c r => if ascii_eqb c "-" then ("-", r) else ("", s)
    | EmptyString => ("", s)
    end in
  match body with
  | String c r =>
      if ascii_eqb c "0" then Some (sign +:+ "0", r)
      else if is_digit c
      then let '(ds, rest) := take_digits r in Some (sign +:+ String c ds, rest)
      else None
  | EmptyString => None
  end.

(** The fraction, when present: a dot followed by at least one digit. *)
Definition match_frac (s : string) : string * string :=
  match s with
  | String c (String d r) =>
      if ascii_eqb c "." && is_digit d
      then let '(ds, rest) := take_digits r in (String c (String d ds), rest)
      else ("", s)
  | _ => ("", s)
  end.

(** The exponent, when present: e or E, an optional sign, at least one
    digit. *)
Definition match_exp (s : string) : string * string :=
  match s with
  | String c r =>
      if ascii_eqb c "e" || ascii_eqb c "E" then
        let '(sign, r1) :=
          match r with
          | String d r' =>
              if ascii_eqb d "-" || ascii_eqb d "+"
              then (str_of_char d, r') else ("", r)
          | EmptyString => ("", r)
          end in
        let '(ds, rest) := take_digits r1 in
        if str_is_empty ds then ("", s) else (String c (sign +:+ ds), rest)
      else ("", s)
  | EmptyString => ("", s)
  end.

Definition int_of_lexeme (lex : string) : Z :=
  match lex with
  | String c r => if ascii_eqb c "-" then - decimal 0 r else decimal 0 lex
  | EmptyString => 0
  end.

Definition match_number (s : string) : option (value * string) :=
  match match_int s with
  | Some (int_part, r) =>
      let '(frac, r1) := match_frac r in
      let '(exp, r2) := match_exp r1 in
      if str_is_empty frac && str_is_empty exp
      then Some (VInt (int_of_lexeme int_part), r2)
      else Some (VFloat (int_part +:+ frac +:+ exp), r2)
  | None => None
  end.

(** [s] starts with [word]: the text after it. *)
Fixpoint strip_prefix (word s : string) : option string :=
  match word, s with
  | EmptyString, _ => Some s
  | String a w, String c r => if ascii_eqb a c then strip_prefix w r else None
  | String _ _, EmptyString => None
  end.

Definition match_constant (s : string) : option (value * string) :=
  match strip_prefix "null" s with
  | Some r => Some (VNone, r)
  | None =>
  match strip_prefix "true" s with
  | Some r => Some (VBool true, r)
  | None =>
  match strip_prefix "false" s with
  | Some r => Some (VBool false, r)
  | None =>
  match strip_prefix "NaN" s with
  | Some r => Some (VFloat "NaN", r)
  | None =>
  match strip_prefix "Infinity" s with
  | Some r => Some (VFloat "Infinity", r)
  | None =>
  match strip_prefix "-Infinity" s with
  | Some r => Some (VFloat "-Infinity", r)
  | None => None
  end end end end end end.

(** [scan_once] with [_parse_array] and [_parse_object]; every call below
    the first spends one unit of [fuel]. *)
Fixpoint scan_once (fuel : nat) (s : string) : option (value * string) :=
  match fuel with
  | O => None
  | S fuel =>
      match s with
      | EmptyString => None
      | String c r =>
          if ascii_eqb c DQUOTE then
            match scanstring None r with
            | Some (str, rest) => Some (mk_str str, rest)
            | None => None
            end
          else if ascii_eqb c "{" then
            match skip_ws r with
            | String c1 r1 =>
                if ascii_eqb c1 "}" then Some (VDict [], r1)
                else parse_members fuel (skip_ws r) []
            | EmptyString => None
            end
          else if ascii_eqb c "[" then
            match skip_ws r with
            | String c1 r1 =>
                if ascii_eqb c1 "]" then Some (VList [], r1)
                else parse_items fuel (skip_ws r) []
            | EmptyString => None
            end
          else
            match match_constant s with
            | Some res => Some res
            | None => match_number s
            end
      end
  end
with parse_items (fuel : nat) (s : string) (acc : list value)
  : option (value * string) :=
  match fuel with
  | O => None
  | S fuel =>
      match scan_once fuel s with
      | Some (v, rest) =>
          match skip_ws rest with
          | String c r =>
              if ascii_eqb c "]" then Some (VList (acc ++ [v]), r)
              else if ascii_eqb c "," then parse_items fuel (skip_ws r) (acc ++ [v])
              else None
          | EmptyString => None
          end
      | None => None
      end
  end
with parse_members (fuel : nat) (s : string) (acc : list (string * value))
  : option (value * string) :=
  match fuel with
  | O => None
  | S fuel =>
      match s with
      | String q r =>
          if ascii_eqb q DQUOTE then
            match scanstring None r with
            | Some (key, r1) =>
                match skip_ws r1 with
                | String colon r2 =>
                    if ascii_eqb colon ":" then
                      match scan_once fuel (skip_ws r2) with
                      | Some (v, r3) =>
                          let acc := dict_set acc key v in
                          match skip_ws r3 with
                          | String c r4 =>
                              if ascii_eqb c "}" then Some (VDict acc, r4)
                              else if ascii_eqb c ","
                              then parse_members fuel (skip_ws r4) acc
                              else None
                          | EmptyString => None
                          end
                      | None => None
                      end
                    else None
                | EmptyString => None
                end
            | None => None
            end
          else None
      | EmptyString => None
      end
  end.

(** [JSONDecoder.decode]: one value between optional whitespace, and nothing
    after it.  The fuel is enough for every text ([loads_fuel] below); the
    recursion limit of the interpreter is not modelled. *)
Definition loads (s : string) : option value :=
  match scan_once (S (String.length s)) (skip_ws s) with
  | Some (v, rest) => if str_is_empty (skip_ws rest) then Some v else None
  | None => None
  end.

End Json.
(** ** Query Builder: how [requests.get(url, params=...)] prepares the URL

    [PreparedRequest.prepare_url] of requests (2.31) takes the URL apart with
    [parse_url] of urllib3 (1.26), which normalises it on the way, encodes
    the parameters with [urllib.parse.urlencode], joins them to the query of
    the endpoint, puts the URL together with [urlunparse] and passes the
    whole through [requote_uri]. *)

Module Url.

Definition is_alnum (c : ascii) : bool :=
  let n := ord c in
  in_range 48 57 n || in_range 65 90 n || in_range 97 122 n.

(** [_ALWAYS_SAFE] of [urllib.parse] (and [UNRESERVED_SET] of requests):
    letters, digits and [_.-~]. *)
Definition is_unreserved (c : ascii) : bool :=
  is_alnum c || ascii_eqb c "_" || ascii_eqb c "." || ascii_eqb c "-"
  || ascii_eqb c "~".

Definition hex_upper (n : Z) : ascii :=
  if n <? 10 then byte (48 + n) else byte (55 + n).

(** ['%{:02X}'.format(b)] *)
Definition percent (c : ascii) : string :=
  String "%" (String (hex_upper (ord c / 16)) (String (hex_upper (ord c mod 16)) "")).

(** [quote(s, safe)]: the bytes of [s], each kept when it is always safe or
    in [safe], and percent-encoded otherwise. *)
Fixpoint quote (safe : ascii -> bool) (s : string) : string :=
  match s with
  | EmptyString => ""
  | String c r =>
      (if is_unreserved c || safe c then str_of_char c else percent c)
      +:+ quote safe r
  end.

(** [s.replace(a, b)] for single characters. *)
Fixpoint replace_char (a b : ascii) (s : string) : string :=
  match s with
  | EmptyString => ""
  | String c r => String (if ascii_eqb c a then b else c) (replace_char a b r)
  end.

(** [quote_plus(s, safe='')]: quote with the space kept, then every space
    replaced by a plus sign. *)
Definition quote_plus (s : string) : string :=
  replace_char " " "+" (quote (fun c => ascii_eqb c " ") s).

(** [urlencode(items, doseq=True)] on pairs of strings. *)
Definition urlencode (items : list (string * string)) : string :=
  join "&" (map (fun kv => quote_plus (fst kv) +:+ "=" +:+ quote_plus (snd kv)) items).

(** [unquote_unreserved(uri)]: a percent escape of an unreserved character is
    replaced by the character; [None] stands for [InvalidURL] (two
    alphanumeric characters after the percent sign that are not hexadecimal
    digits).  Alphanumeric means ASCII letters and digits here. *)
Fixpoint unquote_unreserved (s : string) : option string :=
  match s with
  | EmptyString => Some ""
  | String c r =>
      if ascii_eqb c "%" then
        match r with
        | String h1 (String h2 r2) =>
            if is_alnum h1 && is_alnum h2 then
              match hex_val h1, hex_val h2 with
              | Some a, Some b =>
                  let ch := byte (a * 16 + b) in
                  if is_unreserved ch
                  then String ch <$> unquote_unreserved r2
                  else String c <$> unquote_unreserved r
              | _, _ => None
              end
            else String c <$> unquote_unreserved r
        | _ => String c <$> unquote_unreserved r
        end
      else String c <$> unquote_unreserved r
  end.

Definition str_mem (c : ascii) (s : string) : bool :=
  str_existsb (ascii_eqb c) s.

Definition safe_without_percent : string := "!#$&'()*+,/:;=?@[]~".
Definition safe_with_percent : string := "!#$%&'()*+,/:;=?@[]~".

Definition requote_uri (uri : string) : string :=
  match unquote_unreserved uri with
  | Some u => quote (fun c => str_mem c safe_with_percent) u
  | None => quote (fun c => str_mem c safe_without_percent) uri
  end.

(** The text before the first [sep] and the text after it ([None] when
    [sep] does not occur). *)
Fixpoint partition (sep : ascii) (s : string) : string * option string :=
  match s with
  | EmptyString => ("", None)
  | String c r =>
      if ascii_eqb c sep then ("", Some r)
      else let '(a, b) := partition sep r in (String c a, b)
  end.

(** *** [parse_url] of urllib3 *)

Definition is_alpha (c : ascii) : bool :=
  in_range 65 90 (ord c) || in_range 97 122 (ord c).

Definition is_hex (c : ascii) : bool :=
  match hex_val c with Some _ => true | None => false end.

(** [str.lower()] and [str.upper()], on the ASCII letters. *)
Definition lower_char (c : ascii) : ascii :=
  if in_range 65 90 (ord c) then byte (ord c + 32) else c.

Definition upper_char (c : ascii) : ascii :=
  if in_range 97 122 (ord c) then byte (ord c - 32) else c.

Fixpoint lower (s : string) : string :=
  match s with
  | EmptyString => ""
  | String c r => String (lower_char c) (lower r)
  end.

Definition is_ascii (s : string) : bool := str_forallb (fun c => ord c <? 128) s.

(** The white space of [str.lstrip()]: the ASCII characters 9 to 13, 28 to
    31 and the space, then U+0085 and U+00A0 (two bytes), U+1680,
    U+2000 to U+200A, U+2028, U+2029, U+202F, U+205F and U+3000 (three
    bytes). *)
Definition is_space (c : ascii) : bool :=
  in_range 9 13 (ord c) || in_range 28 32 (ord c).

Definition is_space2 (a b : ascii) : bool :=
  (ord a =? 194) && ((ord b =? 133) || (ord b =? 160)).

Definition is_space3 (a b c : ascii) : bool :=
  ((ord a =? 225) && (ord b =? 154) && (ord c =? 128))
  || ((ord a =? 226) && (ord b =? 128)
      && (in_range 128 138 (ord c) || in_range 168 169 (ord c) || (ord c =? 175)))
  || ((ord a =? 226) && (ord b =? 129) && (ord c =? 159))
  || ((ord a =? 227) && (ord b =? 128) && (ord c =? 128)).

Fixpoint lstrip (s : string) : string :=
  match s with
  | EmptyString => ""
  | String a r =>
      if is_space a then lstrip r
      else
        match r with
        | String b r2 =>
            if is_space2 a b then lstrip r2
            else
              match r2 with
              | String c r3 => if is_space3 a b c then lstrip r3 else s
              | EmptyString => s
              end
        | EmptyString => s
        end
  end.

(** The parts [parse_url] returns; an absent path is the empty string. *)
Record parts := {
  p_scheme : option string;
  p_auth : option string;
  p_host : option string;
  p_port : option Z;
  p_path : string;
  p_query : option string;
  p_fragment : option string
}.

(** [Url()]: what [parse_url] makes of the empty string. *)
Definition no_parts : parts :=
  {| p_scheme := None; p_auth := None; p_host := None; p_port := None;
     p_path := ""; p_query := None; p_fragment := None |}.

(** The characters of a scheme after its first letter; [URI_RE] admits the
    dot, [SCHEME_RE] does not. *)
Definition is_scheme_char (dot : bool) (c : ascii) : bool :=
  is_alnum c || ascii_eqb c "+" || ascii_eqb c "-" || (dot && ascii_eqb c ".").

(** [SCHEME_RE.search(url)]: the URL starts with a slash, or with a letter,
    scheme characters and a colon. *)
Definition scheme_re (url : string) : bool :=
  match url with
  | EmptyString => false
  | String c r =>
      ascii_eqb c "/"
      || (is_alpha c && starts_with ":" (snd (span (is_scheme_char false) r)))
  end.

(** The scheme group of [URI_RE], and the text after its colon. *)
Definition split_scheme (url : string) : option string * string :=
  match url with
  | EmptyString => (None, url)
  | String c r =>
      if is_alpha c then
        match span (is_scheme_char true) r with
        | (run, String d rest) =>
            if ascii_eqb d ":" then (Some (String c run), rest) else (None, url)
        | (_, EmptyString) => (None, url)
        end
      else (None, url)
  end.

(** The authority group of [URI_RE]: after two slashes, the characters up to
    the first slash or backslash; the path is what follows.  The text given
    holds neither question mark nor number sign. *)
Definition split_authority (s : string) : option string * string :=
  match s with
  | String a (String b r) =>
      if ascii_eqb a "/" && ascii_eqb b "/"
      then
        let '(authority, rest) :=
          span (fun c => negb (ascii_eqb c BACKSLASH || ascii_eqb c "/")) r in
        (Some authority, rest)
      else (None, s)
  | _ => (None, s)
  end.

(** The five groups of [URI_RE]: the fragment starts at the first number
    sign, the query at the first question mark before it; scheme, authority
    and path share what comes before. *)
Definition uri_re (url : string)
  : option string * option string * string * option string * option string :=
  let '(before, fragment) := partition "#" url in
  let '(hier, query) := partition "?" before in
  let '(scheme, rest) := split_scheme hier in
  let '(authority, path) := split_authority rest in
  (scheme, authority, path, query, fragment).

(** [s.rpartition(sep)]: the text before the last [sep] and the text after
    it; [None] when [sep] does not occur. *)
Fixpoint rpartition (sep : ascii) (s : string) : option (string * string) :=
  match s with
  | EmptyString => None
  | String c r =>
      match rpartition sep r with
      | Some (a, b) => Some (String c a, b)
      | None => if ascii_eqb c sep then Some ("", r) else None
      end
  end.

(** [REG_NAME_PAT]: any characters but brackets, colon, slash, question
    mark and number sign, a percent sign only before two hexadecimal
    digits. *)
Fixpoint is_reg_name (s : string) : bool :=
  match s with
  | EmptyString => true
  | String c r =>
      if ascii_eqb c "%" then
        match r with
        | String h1 (String h2 r2) => is_hex h1 && is_hex h2 && is_reg_name r2
        | _ => false
        end
      else negb (str_mem c "[]:/?#") && is_reg_name r
  end.

(** The text without its last character when that is a line feed (where the
    dollar sign of a pattern also matches). *)
Fixpoint chomp (s : string) : string :=
  match s with
  | EmptyString => ""
  | String c EmptyString => if ascii_eqb c LF then "" else s
  | String c r => String c (chomp r)
  end.

Fixpoint strip_zeros (s : string) : string :=
  match s with
  | String c r => if ascii_eqb c "0" then strip_zeros r else s
  | EmptyString => ""
  end.

Fixpoint int_of_digits (acc : Z) (ds : string) : Z :=
  match ds with
  | EmptyString => acc
  | String c r => int_of_digits (acc * 10 + (ord c - 48)) r
  end.

(** The port group of [_HOST_PORT_RE] on the text after the colon, and
    [int(port)]: zeros, then nothing, or a number of at most five digits.
    [Some None] when the port is empty, [None] when the text does not match
    or the port is above 65535. *)
Definition parse_port (s : string) : option (option Z) :=
  let digits := chomp s in
  if str_forallb is_digit digits then
    if str_is_empty digits then Some None
    else
      let d := strip_zeros digits in
      if (String.length d <=? 5)%nat && (int_of_digits 0 d <=? 65535)
      then Some (Some (int_of_digits 0 d))
      else None
  else None.

(** [_HOST_PORT_RE.match(host_port).groups()] for a registered name or a
    dotted number; no match is [LocationParseError], which requests turns
    into [InvalidURL].  A host in brackets (an IPv6 literal) is not
    followed. *)
Definition split_host_port (host_port : string) : result (string * option Z) :=
  if starts_with "[" host_port then Raise (Unmodelled "IPv6 literal")
  else
    let '(h, after) := partition ":" host_port in
    if is_reg_name h then
      match after with
      | None => Ok (h, None)
      | Some digits =>
          match parse_port digits with
          | Some port => Ok (h, port)
          | None => Raise InvalidURL
          end
      end
    else Raise InvalidURL.

(** [_normalize_host]: an ASCII name is lower-cased; the IDNA encoding of a
    name with other characters is not followed. *)
Definition normalize_host (normalize : bool) (h : string) : result string :=
  if normalize && negb (str_is_empty h) then
    if is_ascii h then Ok (lower h) else Raise (Unmodelled "IDNA host name")
  else Ok h.

(** [PERCENT_RE.subn]: every percent escape with its digits in upper case,
    and the number of escapes. *)
Fixpoint upper_escapes (s : string) : string * nat :=
  match s with
  | EmptyString => ("", O)
  | String c r =>
      let keep := let '(t, n) := upper_escapes r in (String c t, n) in
      if ascii_eqb c "%" then
        match r with
        | String h1 (String h2 r2) =>
            if is_hex h1 && is_hex h2
            then
              let '(t, n) := upper_escapes r2 in
              (String c (String (upper_char h1) (String (upper_char h2) t)), S n)
            else keep
        | _ => keep
        end
      else keep
  end.

Fixpoint count_char (c : ascii) (s : string) : nat :=
  match s with
  | EmptyString => O
  | String d r => ((if ascii_eqb d c then 1 else 0) + count_char c r)%nat
  end.

(** The characters [_encode_invalid_chars] keeps besides the unreserved
    ones: [USERINFO_CHARS], [PATH_CHARS], [QUERY_CHARS] (the fragment has
    those of the query). *)
Definition userinfo_char (c : ascii) : bool := str_mem c "!$&'()*+,;=:".
Definition path_char (c : ascii) : bool := userinfo_char c || str_mem c "@/".
Definition query_char (c : ascii) : bool := path_char c || ascii_eqb c "?".

(** [_encode_invalid_chars(component, allowed)]: escapes are upper-cased;
    every byte that is not allowed is percent-encoded, the percent sign
    too unless each one of them starts an escape. *)
Definition encode_invalid_chars (allowed : ascii -> bool) (component : string)
  : string :=
  let '(text, escapes) := upper_escapes component in
  let is_percent_encoded := (escapes =? count_char "%" text)%nat in
  quote (fun c => (is_percent_encoded && ascii_eqb c "%") || allowed c) text.

(** [s.split(sep)] *)
Fixpoint split_on (sep : ascii) (s : string) : list string :=
  match s with
  | EmptyString => [""]
  | String c r =>
      if ascii_eqb c sep then "" :: split_on sep r
      else
        match split_on sep r with
        | p :: ps => String c p :: ps
        | [] => [String c ""]
        end
  end.

Fixpoint ends_with (suffix s : string) : bool :=
  bool_decide (s = suffix)
  || match s with
     | EmptyString => false
     | String _ r => ends_with suffix r
     end.

(** One turn of the loop of [_remove_path_dot_segments]. *)
Definition dot_step (output : list string) (segment : string) : list string :=
  if bool_decide (segment = ".") then output
  else if bool_decide (segment = "..") then removelast output
  else output ++ [segment].

Definition remove_path_dot_segments (path : string) : string :=
  let output := fold_left dot_step (split_on "/" path) [] in
  let output :=
    if starts_with "/" path
       && match output with
          | [] => true
          | first :: _ => negb (str_is_empty first)
          end
    then "" :: output else output in
  let output :=
    if ends_with "/." path || ends_with "/.." path
    then output ++ [""] else output in
  join "/" output.

Definition is_http (scheme : string) : bool :=
  bool_decide (scheme = "http") || bool_decide (scheme = "https").

(** The authority taken apart: user information, host and port. *)
Definition parse_authority (normalize : bool) (authority : option string)
  : result (option string * option string * option Z) :=
  match authority with
  | None | Some EmptyString => Ok (None, None, None)
  | Some a =>
      let '(userinfo, host_port) :=
        match rpartition "@" a with
        | Some (u, hp) => (u, hp)
        | None => ("", a)
        end in
      match split_host_port host_port with
      | Raise e => Raise e
      | Ok (h, port) =>
          match normalize_host normalize h with
          | Raise e => Raise e
          | Ok h' =>
              Ok (if str_is_empty userinfo then None
                  else Some (if normalize
                             then encode_invalid_chars userinfo_char userinfo
                             else userinfo),
                  Some h', port)
          end
      end
  end.

(** [parse_url(url)].  Only a URL whose scheme is http or https, or that
    has none, is normalised: scheme and host in lower case, dot segments
    removed from the path, invalid characters of path, query and fragment
    percent-encoded.  [Url.__new__] puts a slash before a path that has
    none.  A URL of another scheme that holds non-ASCII characters is not
    followed. *)
Definition parse_url (url : string) : result parts :=
  if str_is_empty url then Ok no_parts
  else
    let url := if scheme_re url then url else "//" +:+ url in
    let '(scheme, authority, path, query, fragment) := uri_re url in
    let normalize :=
      match scheme with
      | None => true
      | Some s => is_http (lower s)
      end in
    if negb normalize && negb (is_ascii url)
    then Raise (Unmodelled "non-ASCII URL of another scheme")
    else
      match parse_authority normalize authority with
      | Raise e => Raise e
      | Ok (userinfo, h, port) =>
          let norm (allowed : ascii -> bool) (s : string) :=
            if normalize && negb (str_is_empty s)
            then encode_invalid_chars allowed s else s in
          let path :=
            if normalize && negb (str_is_empty path)
            then encode_invalid_chars path_char (remove_path_dot_segments path)
            else path in
          let path :=
            if str_is_empty path || starts_with "/" path then path
            else "/" +:+ path in
          Ok {| p_scheme := lower <$> scheme; p_auth := userinfo;
                p_host := h; p_port := port; p_path := path;
                p_query := norm query_char <$> query;
                p_fragment := norm query_char <$> fragment |}
      end.

(** *** [prepare_url] of requests *)

(** [urlunparse([scheme, netloc, path, None, query, fragment])] with a
    netloc and a path that starts with a slash. *)
Definition urlunparse (scheme netloc path query fragment : string) : string :=
  scheme +:+ "://" +:+ netloc +:+ path
  +:+ (if str_is_empty query then "" else "?" +:+ query)
  +:+ (if str_is_empty fragment then "" else "#" +:+ fragment).

(** [str(port)] *)
Definition digit_char (n : Z) : ascii := byte (48 + n).

Fixpoint str_of_nat_fuel (fuel : nat) (n : Z) (acc : string) : string :=
  match fuel with
  | O => acc
  | S fuel =>
      let acc := String (digit_char (n mod 10)) acc in
      if n / 10 =? 0 then acc else str_of_nat_fuel fuel (n / 10) acc
  end.

Definition str_of_int (n : Z) : string := str_of_nat_fuel 20 n "".

Definition netloc_of (userinfo : option string) (h : string) (port : option Z)
  : string :=
  match userinfo with Some u => u +:+ "@" | None => "" end
  +:+ h
  +:+ match port with
      | Some n => if n =? 0 then "" else ":" +:+ str_of_int n
      | None => ""
      end.

(** The query with the encoded parameters joined to it. *)
Definition add_params (query : option string) (enc_params : string) : string :=
  let query := default "" query in
  if str_is_empty enc_params then query
  else if str_is_empty query then enc_params
  else query +:+ "&" +:+ enc_params.

(** What [prepare_url] makes of the URL before the parameters are added:
    leading white space is removed; a URL with a colon that does not start
    with http (mailto:, data:, ...) is left as it is ([inl]); any other is
    parsed, and must have a scheme ([MissingSchema]) and a host that starts
    neither with a star nor with a dot ([InvalidURL]). *)
Definition located (url : string)
  : result (string + string * string * string * option string * option string) :=
  let url := lstrip url in
  if str_mem ":" url && negb (starts_with "http" (lower url)) then Ok (inl url)
  else
    match parse_url url with
    | Raise e => Raise e
    | Ok p =>
        match p_scheme p with
        | None => Raise MissingSchema
        | Some scheme =>
            match p_host p with
            | None | Some EmptyString => Raise InvalidURL
            | Some h =>
                if negb (is_ascii h) then Raise (Unmodelled "IDNA host name")
                else if starts_with "*" h || starts_with "." h
                then Raise InvalidURL
                else
                  Ok (inr (scheme, netloc_of (p_auth p) h (p_port p),
                           (if str_is_empty (p_path p) then "/" else p_path p),
                           p_query p, p_fragment p))
            end
        end
    end.

(** [prepare_url(url, params)]: the URL requested. *)
Definition prepare_url (url : string) (params : list (string * string))
  : result string :=
  match located url with
  | Raise e => Raise e
  | Ok (inl unprepared) => Ok unprepared
  | Ok (inr (scheme, netloc, path, query, fragment)) =>
      Ok (requote_uri
            (urlunparse scheme netloc path
               (add_params query (urlencode params)) (default "" fragment)))
  end.

(** [Session.get_adapter(url)] finds a connection adapter for the URLs
    that start with https:// or http://, whatever the case. *)
Definition has_adapter (url : string) : bool :=
  starts_with "https://" (lower url) || starts_with "http://" (lower url).

(** The query component of a URL. *)
Definition url_query (url : string) : string :=
  default "" (snd (partition "?" (fst (partition "#" url)))).

End Url.

(** The endpoints and parameters of the notebook's cells. *)
Definition test_endpoint : string := "https://data.seattle.gov/resource/76t5-zqzr.json?".
Definition test_params : string := "$where=(PermitNum='6531736-PH')".
Definition test_url : string := test_endpoint +:+ test_params.

Definition bp_api_params : list (string * string) :=
  [ ("$select", "PermitNum, PermitClass, CompletedDate, Description");
    ("$where", "(PermitClass='Multifamily' OR PermitClass='Single Family/Duplex') AND PermitTypeDesc='New' AND CompletedDate > '2006-01-01'");
    ("$order", "CompletedDate DESC");
    ("$limit", "1000") ].

Definition bp_endpoint : string := "https://data.seattle.gov/resource/76t5-zqzr.json?".


(** ** The notebook's kernel state

    The names the cells bind ([bp_request], [bp_data], [csv_outfile], the
    loop variable [b]; [None] before the first binding) and the files on
    disk.  A file object opened for writing keeps what was written in its
    buffer until it is flushed. *)

Record Response := {
  url : string;
  status_code : Z;
  text : string
}.

Record file := {
  f_name : string;
  f_closed : bool;
  f_buffer : string
}.

Record kernel := {
  disk : gmap string string;
  bp_request : option Response;
  bp_data : option value;
  csv_outfile : option file;
  var_b : option value
}.

Definition set_disk (d : gmap string string) (k : kernel) : kernel :=
  {| disk := d; bp_request := bp_request k; bp_data := bp_data k;
     csv_outfile := csv_outfile k; var_b := var_b k |}.

Definition set_bp_request (r : Response) (k : kernel) : kernel :=
  {| disk := disk k; bp_request := Some r; bp_data := bp_data k;
     csv_outfile := csv_outfile k; var_b := var_b k |}.

Definition set_bp_data (v : value) (k : kernel) : kernel :=
  {| disk := disk k; bp_request := bp_request k; bp_data := Some v;
     csv_outfile := csv_outfile k; var_b := var_b k |}.

Definition set_csv_outfile (f : file) (k : kernel) : kernel :=
  {| disk := disk k; bp_request := bp_request k; bp_data := bp_data k;
     csv_outfile := Some f; var_b := var_b k |}.

Definition set_var_b (v : value) (k : kernel) : kernel :=
  {| disk := disk k; bp_request := bp_request k; bp_data := bp_data k;
     csv_outfile := csv_outfile k; var_b := Some v |}.

(** A fresh kernel: nothing bound, the given files on disk. *)
Definition fresh_kernel (d : gmap string string) : kernel :=
  {| disk := d; bp_request := None; bp_data := None;
     csv_outfile := None; var_b := None |}.

(** The content of a file on disk; [None] when there is no such file. *)
Definition file_content (k : kernel) (path : string) : option string :=
  disk k !! path.

(** ** Statements: state passing with exceptions *)

Definition M (A : Type) : Type := kernel -> result A * kernel.

Definition ret {A} (a : A) : M A := fun k => (Ok a, k).

Definition raise {A} (e : exn) : M A := fun k => (Raise e, k).

Definition bind {A B} (m : M A) (f : A -> M B) : M B :=
  fun k =>
    match m k with
    | (Ok a, k') => f a k'
    | (Raise e, k') => (Raise e, k')
    end.

Definition lift {A} (r : result A) : M A := fun k => (r, k).

(** Reading a name of the kernel; [NameError] when it is not bound. *)
Definition lookup_name {A} (name : string) (get : kernel -> option A) : M A :=
  fun k =>
    match get k with
    | Some v => (Ok v, k)
    | None => (Raise (NameError name), k)
    end.

Notation "x <- m ;; f" := (bind m (fun x => f))
  (at level 100, m at next level, right associativity).
Notation "m ;;; f" := (bind m (fun _ => f))
  (at level 100, right associativity).

(** [for x in items: body x] *)
Fixpoint for_each {A} (items : list A) (body : A -> M unit) : M unit :=
  match items with
  | [] => ret tt
  | x :: rest => body x ;;; for_each rest body
  end.

(** Evaluates the expressions of a tuple display from left to right. *)
Fixpoint eval_tuple {A} (es : list (result A)) : result (list A) :=
  match es with
  | [] => Ok []
  | Ok a :: rest =>
      match eval_tuple rest with
      | Ok l => Ok (a :: l)
      | Raise e => Raise e
      end
  | Raise e :: _ => Raise e
  end.

(** ** Fetcher: cell 3

<<
    bp_request = requests.get(bp_endpoint, params=bp_api_params)
    bp_data = bp_request.json()
    pprint(bp_request.url)
    pprint(bp_data[:5])
>>
    The network is a function from the URL requested to the status code and
    the body of the final answer. *)

(** [requests.get(endpoint, params=params)]: the URL is prepared, a
    connection adapter is looked up for it ([InvalidSchema] when there is
    none), and the answer of the network is returned whatever its status. *)
Definition requests_get (server : string -> Z * string)
    (endpoint : string) (params : list (string * string)) : result Response :=
  match Url.prepare_url endpoint params with
  | Raise e => Raise e
  | Ok u =>
      if Url.has_adapter u then
        let '(status, body) := server u in
        Ok {| url := u; status_code := status; text := body |}
      else Raise InvalidSchema
  end.

(** [Response.json()]: the body decoded by [json.loads]. *)
Definition Response_json (r : Response) : result value :=
  match Json.loads (text r) with
  | Some v => Ok v
  | None => Raise JSONDecodeError
  end.

(** The first two statements of the cell, the Fetcher proper, with the
    endpoint and the parameters taken as arguments. *)
Definition fetch (server : string -> Z * string)
    (endpoint : string) (params : list (string * string)) : M unit :=
  response <- lift (requests_get server endpoint params) ;;
  (fun k => (Ok tt, set_bp_request response k)) ;;;
  r <- lookup_name "bp_request" bp_request ;;
  data <- lift (Response_json r) ;;
  fun k => (Ok tt, set_bp_data data k).

(** [v[:stop]]: the first items of a list, the first characters of a [str];
    a [dict] cannot take a slice as key, and the other values are not
    subscriptable. *)
Definition getslice (stop : nat) (v : value) : result value :=
  match v with
  | VList l => Ok (VList (take stop l))
  | VStr s => Ok (VStr (concat_str (take stop (str_chars s))))
  | VStrLone s => Ok (mk_str (concat_str (take stop (str_chars s))))
  | VDict _ => Raise (TypeError "unhashable type: 'slice'")
  | _ => Raise (TypeError ("'" +:+ type_name v +:+ "' object is not subscriptable"))
  end.

(** The four statements of the cell: the outcome, the kernel it leaves, and
    what was printed before it ended.  What [pprint] shows is kept as the
    list of the values handed to it, in order; their layout on the screen is
    not modelled. *)
Definition fetch_and_show (server : string -> Z * string)
    (endpoint : string) (params : list (string * string)) (k : kernel)
  : result unit * kernel * list value :=
  match fetch server endpoint params k with
  | (Raise e, k1) => (Raise e, k1, [])
  | (Ok _, k1) =>
      match bp_request k1 with
      | None => (Raise (NameError "bp_request"), k1, [])
      | Some r =>
          match bp_data k1 with
          | None => (Raise (NameError "bp_data"), k1, [VStr (url r)])
          | Some data =>
              match getslice 5 data with
              | Ok shown => (Ok tt, k1, [VStr (url r); shown])
              | Raise e => (Raise e, k1, [VStr (url r)])
              end
          end
      end
  end.


(** The cell as a statement: its outcome and the kernel it leaves. *)
Definition run_cell3 (server : string -> Z * string)
    (endpoint : string) (params : list (string * string)) : M unit :=
  fun k => fst (fetch_and_show server endpoint params k).

Definition cell3 (server : string -> Z * string) : M unit :=
  run_cell3 server bp_endpoint bp_api_params.

(** Cell 1, the test request:
<<
    test_url = test_endpoint + test_params
    test_request = requests.get(test_url)
    test_data = test_request.json()
>>
    The query is written by hand and no parameter mapping is passed. *)
Definition cell1 (server : string -> Z * string)
  : result (Response * result value) :=
  match requests_get server test_url [] with
  | Ok test_request => Ok (test_request, Response_json test_request)
  | Raise e => Raise e
  end.
(** ** Text files: [open(path, 'w', encoding='utf-8')], [write], [close]

    Newline translation of text mode is the identity (POSIX [os.linesep]). *)

Definition open_w (path : string) : M unit := fun k =>
  (Ok tt,
   set_csv_outfile {| f_name := path; f_closed := false; f_buffer := "" |}
     (set_disk (<[path := ""]> (disk k)) k)).

(** [csv_outfile.write(s)]: the argument must be a [str] and the file open;
    the text is encoded to UTF-8, which fails for a [str] that holds a lone
    surrogate, and nothing is written then. *)
Definition file_write (s : value) : M unit :=
  f <- lookup_name "csv_outfile" csv_outfile ;;
  match s with
  | VStr text =>
      if f_closed f
      then raise (ValueError "I/O operation on closed file.")
      else fun k =>
        (Ok tt,
         set_csv_outfile
           {| f_name := f_name f; f_closed := false;
              f_buffer := f_buffer f +:+ text |} k)
  | VStrLone _ =>
      if f_closed f
      then raise (ValueError "I/O operation on closed file.")
      else raise UnicodeEncodeError
  | _ => raise (TypeError ("write() argument must be str, not " +:+ type_name s))
  end.

(** [close()] flushes the buffer to the file and releases the handle;
    closing a closed file does nothing. *)
Definition file_close : M unit := fun k =>
  match csv_outfile k with
  | Some f =>
      if f_closed f then (Ok tt, k)
      else (Ok tt,
            set_csv_outfile
              {| f_name := f_name f; f_closed := true; f_buffer := "" |}
              (set_disk
                 (<[f_name f := default "" (disk k !! f_name f) +:+ f_buffer f]>
                    (disk k)) k))
  | None => (Ok tt, k)
  end.

(** [with open(path, 'w') as csv_outfile: body]: the file object's
    [__exit__] closes it whether [body] returns or raises, and the exception
    of [body] propagates. *)
Definition with_open (path : string) (body : M unit) : M unit := fun k =>
  let '(_, k1) := open_w path k in
  let '(r, k2) := body k1 in
  let '(_, k3) := file_close k2 in
  (r, k3).

(** ** [csv.writer] with the default (excel) dialect

    delimiter [,], quotechar the double quote, [doublequote] on,
    [QUOTE_MINIMAL], lineterminator CR LF, no escapechar.  The functions
    follow [join_append_data] and [csv_writerow] of CPython's [_csv.c]. *)

(** The characters that make [join_append_data] quote a field.  In the
    CPython 3.7 the notebook records, an unset escapechar is stored as the
    NUL character and compared like the others. *)
Definition is_special (c : ascii) : bool :=
  ascii_eqb c COMMA || ascii_eqb c NUL || ascii_eqb c DQUOTE
  || ascii_eqb c CR || ascii_eqb c LF.

(** The field's characters, each quotechar doubled. *)
Fixpoint escape_field (s : string) : string :=
  match s with
  | EmptyString => ""
  | String c r =>
      if ascii_eqb c DQUOTE
      then String DQUOTE (String DQUOTE (escape_field r))
      else String c (escape_field r)
  end.

Definition join_append_data (field : string) (quoted : bool) : string :=
  let quoted := quoted || str_existsb is_special field in
  if quoted then str_of_char DQUOTE +:+ escape_field field +:+ str_of_char DQUOTE
  else escape_field field.

(** The record [csv_writerow] builds: the fields joined by the delimiter; a
    record of one empty field is written as a pair of quotes. *)
Definition record_text (fields : list string) : string :=
  let rec := join (str_of_char COMMA) (map (fun f => join_append_data f false) fields) in
  if bool_decide (fields <> []) && str_is_empty rec
  then join_append_data "" true
  else rec.

(** The line handed to the file: the record and the line terminator. *)
Definition format_row (fields : list string) : string :=
  record_text fields +:+ CRLF.

Section Exporter.

(** [str(v)] for a value that is neither a [str] nor [None]; the notebook
    never depends on how such a value prints.  The text can always be
    encoded ([repr] escapes the surrogates inside a list or a dict). *)
Variable py_str : value -> string.

(** The text [csv_writerow] takes from a field. *)
Definition field_text (v : value) : string :=
  match v with
  | VStr s | VStrLone s => s
  | VNone => ""
  | _ => py_str v
  end.

(** [writer.writerow(row)]: the line built from the fields is handed to
    [write]; it holds a lone surrogate when one of the fields does. *)
Definition writerow (row : list value) : M unit :=
  let line := format_row (map field_text row) in
  file_write (if existsb is_lone row then VStrLone line else VStr line).

(** One turn of the loop of cell 4: [b] is bound, the tuple of its fields
    is built, and the row is written. *)
Definition loop_body (fields : list string) (b : value) : M unit :=
  (fun k => (Ok tt, set_var_b b k)) ;;;
  row <- lift (eval_tuple (map (getitem b) fields)) ;;
  writerow row.

(** The body of the [with] block of cell 4, with the header tuple and the
    tuple of source field names taken as arguments:
<<
    writer = csv.writer(csv_outfile)
    writer.writerow(header)
    for b in bp_data:
        writer.writerow((b[f1], b[f2], ...))
>> *)
Definition export_body (header fields : list string) : M unit :=
  writerow (map VStr header) ;;;
  data <- lookup_name "bp_data" bp_data ;;
  items <- lift (iter data) ;;
  for_each items (loop_body fields).

Definition csv_export (path : string) (header fields : list string) : M unit :=
  with_open path (export_body header fields).

(** Cell 4 as the notebook has it. *)
Definition cell4 : M unit :=
  csv_export "1000_most_recent_residential_permits.csv"
    ["permit number"; "description"; "building type"; "completed date"]
    ["PermitNum"; "Description"; "PermitClass"; "CompletedDate"].

End Exporter.


(** Cells 3 and 4 run in order, each as the notebook has it; an exception
    in cell 3 stops the run before cell 4. *)
Definition run_all (py_str : value -> string) (server : string -> Z * string)
    (endpoint : string) (params : list (string * string))
    (path : string) (header fields : list string) : M unit :=
  run_cell3 server endpoint params ;;;
  csv_export py_str path header fields.

(** ** Reference decoders

    The readers the specification measures the output against: a URL query
    decoder, a CSV reader and the lines of a text file.  They are not part
    of the notebook. *)

Module Reference.

(** *** Standard URL decoding of a query string *)

(** [unquote]: every percent sign followed by two hexadecimal digits is the
    byte they denote; any other character stands for itself. *)
Fixpoint unquote (s : string) : string :=
  match s with
  | EmptyString => ""
  | String c r =>
      match r with
      | String h1 (String h2 r2) =>
          match (if ascii_eqb c "%" then hex_val h1 else None), hex_val h2 with
          | Some a, Some b => String (byte (a * 16 + b)) (unquote r2)
          | _, _ => String c (unquote r)
          end
      | _ => String c (unquote r)
      end
  end.

(** [unquote_plus]: a plus sign is a space. *)
Definition unquote_plus (s : string) : string :=
  unquote (Url.replace_char "+" " " s).

(** [s.split(sep)] for a one-character separator. *)
Fixpoint split (sep : ascii) (s : string) : list string :=
  match s with
  | EmptyString => [""]
  | String c r =>
      if ascii_eqb c sep then "" :: split sep r
      else
        match split sep r with
        | p :: ps => String c p :: ps
        | [] => [String c ""]
        end
  end.

(** The pairs of a query string: the pieces between ampersands, each split
    at its first equals sign and decoded; an empty piece is skipped and an
    empty value is kept. *)
Definition parse_qsl (qs : string) : list (string * string) :=
  omap (fun piece =>
          if str_is_empty piece then None
          else
            let '(name, v) := Url.partition "=" piece in
            Some (unquote_plus name, unquote_plus (default "" v)))
       (split "&" qs).

(** *** A CSV reader

    Comma-separated fields, a field in double quotes may hold commas, line
    breaks and doubled quotes; records end at CR LF, CR or LF; a blank line
    is the empty record. *)

Inductive reader_state :=
| StartRecord
| StartField
| InField
| InQuotedField
| QuoteInQuotedField
| EatLF.

Record reader := {
  rd_state : reader_state;
  rd_field : string;
  rd_row : list string;
  rd_rows : list (list string)
}.

Definition reader_init : reader :=
  {| rd_state := StartRecord; rd_field := ""; rd_row := []; rd_rows := [] |}.

Definition add_char (c : ascii) (st : reader_state) (r : reader) : reader :=
  {| rd_state := st; rd_field := rd_field r +:+ str_of_char c;
     rd_row := rd_row r; rd_rows := rd_rows r |}.

Definition goto (st : reader_state) (r : reader) : reader :=
  {| rd_state := st; rd_field := rd_field r;
     rd_row := rd_row r; rd_rows := rd_rows r |}.

Definition save_field (r : reader) : reader :=
  {| rd_state := StartField; rd_field := "";
     rd_row := rd_row r ++ [rd_field r]; rd_rows := rd_rows r |}.

Definition end_record (c : ascii) (r : reader) : reader :=
  {| rd_state := if ascii_eqb c CR then EatLF else StartRecord;
     rd_field := ""; rd_row := []; rd_rows := rd_rows r ++ [rd_row r] |}.

Definition is_eol (c : ascii) : bool := ascii_eqb c CR || ascii_eqb c LF.

Definition at_field_start (r : reader) (c : ascii) : reader :=
  if is_eol c then end_record c (save_field r)
  else if ascii_eqb c DQUOTE then goto InQuotedField r
  else if ascii_eqb c COMMA then save_field r
  else add_char c InField r.

Definition at_record_start (r : reader) (c : ascii) : reader :=
  if is_eol c then end_record c r else at_field_start r c.

Definition reader_step (r : reader) (c : ascii) : reader :=
  match rd_state r with
  | StartRecord => at_record_start r c
  | StartField => at_field_start r c
  | InField =>
      if is_eol c then end_record c (save_field r)
      else if ascii_eqb c COMMA then save_field r
      else add_char c InField r
  | InQuotedField =>
      if ascii_eqb c DQUOTE then goto QuoteInQuotedField r
      else add_char c InQuotedField r
  | QuoteInQuotedField =>
      if ascii_eqb c DQUOTE then add_char c InQuotedField r
      else if ascii_eqb c COMMA then save_field r
      else if is_eol c then end_record c (save_field r)
      else add_char c InField r
  | EatLF =>
      if ascii_eqb c LF then goto StartRecord r else at_record_start r c
  end.

Fixpoint reader_run (r : reader) (s : string) : reader :=
  match s with
  | EmptyString => r
  | String c t => reader_run (reader_step r c) t
  end.

(** At the end of the text a record that has begun is closed. *)
Definition reader_finish (r : reader) : list (list string) :=
  match rd_state r with
  | StartRecord | EatLF => rd_rows r
  | _ => rd_rows r ++ [rd_row r ++ [rd_field r]]
  end.

Definition csv_reader (s : string) : list (list string) :=
  reader_finish (reader_run reader_init s).

(** *** The lines of a text: ended by CR LF, CR or LF *)

Fixpoint lines_from (cur : string) (s : string) : list string :=
  match s with
  | EmptyString => if str_is_empty cur then [] else [cur]
  | String c r =>
      if ascii_eqb c LF then cur :: lines_from "" r
      else if ascii_eqb c CR then
        match r with
        | String c2 r2 =>
            if ascii_eqb c2 LF then cur :: lines_from "" r2
            else cur :: lines_from "" r
        | EmptyString => [cur]
        end
      else lines_from (cur +:+ str_of_char c) r
  end.

Definition text_lines (s : string) : list string := lines_from "" s.

(** *** JSON texts

    The grammar of RFC 8259: a value between optional white space.  [extra]
    holds the literals admitted besides [true], [false] and [null]: none in
    JSON itself. *)



Definition digits (s : string) : Prop := str_forallb is_digit s = true.








Section Grammar.

Variable extra : string -> Prop.



End Grammar.



End Reference.

(** ** Vocabulary of the statements *)

(** A Record of the ResultSet: the entries of a JSON object. *)
Abbreviation record := (list (string * value)).

(** The mapping a Record stands for, from field names to values. *)
Definition fields_of (d : record) : gmap string value := list_to_map d.

(** The Record lacks the field. *)
Definition lacks (d : record) (f : string) : bool :=
  match fields_of d !! f with
  | None => true
  | Some _ => false
  end.

(** The first requested field that the Record lacks. *)
Definition first_missing (fields : list string) (d : record) : option string :=
  find (lacks d) fields.

(** The Record has every requested field. *)
Definition has_fields (fields : list string) (d : record) : bool :=
  forallb (fun f => negb (lacks d f)) fields.

(** The values of the requested fields, in the order requested. *)
Definition project (fields : list string) (d : record) : list value :=
  map (fun f => default VNone (fields_of d !! f)) fields.

(** A value whose text has a UTF-8 encoding: any but a string that holds a
    lone surrogate. *)
Definition can_encode (v : value) : bool :=
  match v with
  | VStrLone _ => false
  | _ => true
  end.

(** A Record the export can write a line for: it has every requested field
    and the text of each can be encoded. *)
Definition writable (fields : list string) (d : record) : bool :=
  has_fields fields d && forallb can_encode (project fields d).

(** The Records before the first one that is not writable. *)
Fixpoint written_prefix (fields : list string) (recs : list record) : list record :=
  match recs with
  | [] => []
  | d :: rest =>
      if writable fields d then d :: written_prefix fields rest else []
  end.

(** How the loop over the Records ends: at the first Record that lacks a
    requested field, or whose line cannot be encoded. *)
Fixpoint export_outcome (fields : list string) (recs : list record) : result unit :=
  match recs with
  | [] => Ok tt
  | d :: rest =>
      match first_missing fields d with
      | Some key => Raise (KeyError key)
      | None =>
          if forallb can_encode (project fields d)
          then export_outcome fields rest
          else Raise UnicodeEncodeError
      end
  end.

(** The text of a cell: a string as it is, [None] as the empty string, any
    other value as [str] prints it. *)
Definition cell_text (py_str : value -> string) (v : value) : string :=
  match v with
  | VNone => ""
  | VStr s => s
  | VStrLone s => s
  | VBool _ | VInt _ | VFloat _ | VList _ | VDict _ => py_str v
  end.

(** The texts of the requested fields of a Record. *)
Definition cells_of (py_str : value -> string) (fields : list string) (d : record)
  : list string :=
  map (cell_text py_str) (project fields d).

(** The line written for a Record that has every requested field. *)
Definition row_of (py_str : value -> string) (fields : list string) (d : record)
  : string :=
  format_row (cells_of py_str fields d).

(** The text has neither CR nor LF. *)
Definition no_newline (s : string) : bool :=
  negb (str_existsb Reference.is_eol s).


(** The characters of an endpoint that [requote_uri] leaves alone and that
    start neither a query nor a fragment nor an escape: unreserved
    characters and the punctuation of scheme, host and path. *)
Definition plain_char (c : ascii) : bool :=
  Url.is_unreserved c || Url.str_mem c "!$&'()*+,/:;=@[]".

Definition url_plain (s : string) : bool := str_forallb plain_char s.

(** *** Vocabulary of the proofs *)

(** What [quote_plus] writes for one byte. *)
Definition enc_char (c : ascii) : string :=
  if Url.is_unreserved c then str_of_char c
  else if ascii_eqb c " " then "+"
  else Url.percent c.


(** One encoded pair. *)
Definition enc_pair (kv : string * string) : string :=
  Url.quote_plus (fst kv) +:+ "=" +:+ Url.quote_plus (snd kv).

(** Characters other than the percent sign that [requote_uri] keeps, and
    percent escapes of characters that are not unreserved. *)
Inductive canonical : string -> Prop :=
| canonical_nil : canonical ""
| canonical_char (c : ascii) (s : string) :
    ascii_eqb c "%" = false ->
    Url.is_unreserved c || Url.str_mem c Url.safe_with_percent = true ->
    canonical s -> canonical (String c s)
| canonical_percent (c : ascii) (s : string) :
    Url.is_unreserved c = false ->
    canonical s -> canonical (Url.percent c +:+ s).

(** A successful scan consumes text, and any fuel that is at least the
    number of characters consumed repeats it. *)
Definition enough {A} (run : nat -> string -> option (A * string))
    (s : string) (v : A) (rest : string) : Prop :=
  (String.length rest < String.length s)%nat
  /\ forall g : nat,
       (String.length s - String.length rest <= g)%nat -> run g s = Some (v, rest).

(** A reader about to read a field. *)
Definition at_start (st : Reference.reader_state) : Prop :=
  st = Reference.StartField \/ st = Reference.StartRecord.

(** The file object left by an export to [path]: closed, nothing buffered. *)
Definition closed_file (path : string) : file :=
  {| f_name := path; f_closed := true; f_buffer := "" |}.

(** The file object during an export to [path] with [w] written so far. *)
Definition open_file (path w : string) : file :=
  {| f_name := path; f_closed := false; f_buffer := w |}.

(** The kernel a freshly opened file leaves. *)
Definition opened (path : string) (k : kernel) : kernel :=
  set_csv_outfile (open_file path "") (set_disk (<[path := ""]> (disk k)) k).

(** The kernel once the header row is in the buffer. *)
Definition after_header (path : string) (header : list string) (k1 : kernel)
  : kernel :=
  set_csv_outfile (open_file path (format_row header)) k1.

(** The examples hold strings only; [str] is never called on their fields. *)
Definition str_unused : value -> string := fun _ => "".

(** A literal written with apostrophes in place of double quotes. *)
Fixpoint dq (s : string) : string :=
  match s with
  | EmptyString => ""
  | String c r => String (if ascii_eqb c "'" then DQUOTE else c) (dq r)
  end.

(** ** Vocabulary of the further properties *)

(** [None], a [bool], an [int] or a [float]: a value that can neither be
    iterated nor subscripted. *)
Definition is_scalar (v : value) : bool :=
  match v with
  | VNone | VBool _ | VInt _ | VFloat _ => true
  | _ => false
  end.

Definition is_dict (v : value) : bool :=
  match v with VDict _ => true | _ => false end.


(** The objects of the value, at any depth, have pairwise distinct keys. *)
Inductive distinct_keys : value -> Prop :=
| distinct_none : distinct_keys VNone
| distinct_bool (b : bool) : distinct_keys (VBool b)
| distinct_int (n : Z) : distinct_keys (VInt n)
| distinct_float (lexeme : string) : distinct_keys (VFloat lexeme)
| distinct_str (s : string) : distinct_keys (VStr s)
| distinct_str_lone (s : string) : distinct_keys (VStrLone s)
| distinct_list (items : list value) :
    Forall distinct_keys items -> distinct_keys (VList items)
| distinct_dict (entries : list (string * value)) :
    NoDup (map fst entries) ->
    Forall (fun kv => distinct_keys (snd kv)) entries ->
    distinct_keys (VDict entries).

(** A character that a query written by hand may hold in a value: any but
    the ampersand, the plus sign, the percent sign and the number sign. *)
Definition hand_value_char (c : ascii) : bool :=
  negb (ascii_eqb c "&" || ascii_eqb c "+" || ascii_eqb c "%" || ascii_eqb c "#").

(** In a name the equals sign is excluded too. *)
Definition hand_name_char (c : ascii) : bool :=
  hand_value_char c && negb (ascii_eqb c "=").

(** What [parse_url] writes for one character of a query, other than the
    percent sign. *)
Definition query_enc (c : ascii) : string :=
  if Url.is_unreserved c || Url.query_char c
  then str_of_char c else Url.percent c.

(** The characters [parse_url] keeps in a query each of whose percent signs
    starts an escape. *)
Definition query_keep (c : ascii) : bool :=
  (true && ascii_eqb c "%") || Url.query_char c.

(** A query as [urlencode] writes it: characters of a query other than the
    percent sign, and percent escapes, in upper case, of characters that
    are not unreserved. *)
Inductive encoded : string -> Prop :=
| encoded_nil : encoded ""
| encoded_char (c : ascii) (s : string) :
    ascii_eqb c "%" = false ->
    Url.is_unreserved c || Url.query_char c = true ->
    encoded s -> encoded (String c s)
| encoded_percent (c : ascii) (s : string) :
    Url.is_unreserved c = false ->
    encoded s -> encoded (Url.percent c +:+ s).

(** An http or https URL with its scheme in lower case. *)
Definition is_http_url (u : string) : bool :=
  starts_with "https://" u || starts_with "http://" u.

(** What [parse_url] does to a query that is not empty. *)
Definition norm_query (q : string) : string :=
  if negb (str_is_empty q) then Url.encode_invalid_chars Url.query_char q
  else q.

(** The exceptions with which requests refuses to send a request: no scheme
    in the URL, no host, or no connection adapter for the scheme. *)
Definition request_refused (e : exn) : bool :=
  match e with
  | MissingSchema | InvalidURL | InvalidSchema => true
  | _ => false
  end.



(** A non-empty [dict] or a non-empty [str]: iterating it gives strings (the
    keys, the characters). *)
Definition iterates_strings (v : value) : bool :=
  match v with
  | VDict (_ :: _) => true
  | VStr (String _ _) | VStrLone (String _ _) => true
  | _ => false
  end.

(** A kernel that holds [data] as [bp_data] and a file [path] with the
    content [old] on disk. *)
Definition kernel_with_file (data : value) (path old : string) : kernel :=
  set_bp_data data (fresh_kernel {[ path := old ]}).

(** ** The inputs of the examples *)

Definition ex_header : list string := ["permit number"; "description"].
Definition ex_fields : list string := ["PermitNum"; "Description"].

Definition ex_full : record := [("PermitNum", VStr "A1"); ("Description", VStr "x")].
Definition ex_sparse : record := [("PermitNum", VStr "A2")].
Definition ex_multiline : record :=
  [("PermitNum", VStr "A1");
   ("Description", VStr ("line one" +:+ str_of_char LF +:+ "line two"))].

(** A kernel in which cell 3 has bound [bp_data], with an empty disk. *)
Definition kernel_with (data : value) : kernel :=
  set_bp_data data (fresh_kernel ∅).

(** The export of a ResultSet whose only Record lacks [Description]. *)
Definition sparse_export : result unit * kernel :=
  csv_export str_unused "out.csv" ex_header ex_fields
    (kernel_with (VList [VDict ex_sparse])).

(** The export of a ResultSet whose only Record has a line break in
    [Description]. *)
Definition multiline_export : result unit * kernel :=
  csv_export str_unused "out.csv" ex_header ex_fields
    (kernel_with (VList [VDict ex_multiline])).

(** The string [json] decodes from the escape of the lone surrogate U+D800,
    a Record that holds it as [PermitNum], and the export of a ResultSet
    whose only Record is this one. *)
Definition lone_surrogate : string := Json.utf8_encode 55296.

Definition ex_surrogate : record :=
  [("PermitNum", VStrLone lone_surrogate); ("Description", VStr "x")].

Definition surrogate_export : result unit * kernel :=
  csv_export str_unused "out.csv" ex_header ex_fields
    (kernel_with (VList [VDict ex_surrogate])).

(** A Record of the permit dataset without [Description], and cell 4 of the
    notebook run on a ResultSet that holds only this Record. *)
Definition permit_without_description : record :=
  [("CompletedDate", VStr "2021-03-16");
   ("PermitClass", VStr "Multifamily");
   ("PermitNum", VStr "6645390-CN")].

Definition cell4_sparse : result unit * kernel :=
  cell4 str_unused (kernel_with (VList [VDict permit_without_description])).

(** The URL of the request of cell 3, as the notebook prints it. *)
Definition bp_url : string :=
  "https://data.seattle.gov/resource/76t5-zqzr.json?%24select=PermitNum%2C+PermitClass%2C+CompletedDate%2C+Description&%24where=%28PermitClass%3D%27Multifamily%27+OR+PermitClass%3D%27Single+Family%2FDuplex%27%29+AND+PermitTypeDesc%3D%27New%27+AND+CompletedDate+%3E+%272006-01-01%27&%24order=CompletedDate+DESC&%24limit=1000".

(** The end-to-end scenario: the mock answers the URL of the query with the
    canned body and anything else with 404. *)
Definition scenario_endpoint : string := "https://example.test/resource/abc.json".
Definition scenario_params : list (string * string) := [("$limit", "2")].
Definition scenario_url : string := "https://example.test/resource/abc.json?%24limit=2".
Definition scenario_body : string :=
  dq "[{'PermitNum':'A1','Description':'x'},{'PermitNum':'A2'}]".

Definition scenario_server (u : string) : Z * string :=
  if bool_decide (u = scenario_url) then (200, scenario_body) else (404, "").

Definition scenario_run : result unit * kernel :=
  run_all str_unused scenario_server scenario_endpoint scenario_params
    "out.csv" ex_header ex_fields (fresh_kernel ∅).

(** A server that answers 404 with a JSON array of objects as body. *)
Definition not_found_server (u : string) : Z * string :=
  (404, dq "[{'PermitNum':'A1','Description':'x'}]").






Definition html_server (u : string) : Z * string :=
  (200, "<html>Not found</html>").


(** A server whose array holds one object, with a lone surrogate escape as
    the value of [PermitNum]. *)
Definition surrogate_server (u : string) : Z * string :=
  (200, dq "[{'PermitNum':'\ud800','Description':'x'}]").

Definition surrogate_run : result unit * kernel :=
  run_all str_unused surrogate_server scenario_endpoint scenario_params
    "out.csv" ex_header ex_fields (fresh_kernel ∅).

(** * Properties *)

(** ** Strings *)

Lemma str_app_nil_r (s : string) : s +:+ "" = s.
Proof. induction s as [|c s IH]; simpl; [reflexivity | now rewrite IH]. Qed.

Lemma str_app_assoc (a b c : string) : (a +:+ b) +:+ c = a +:+ (b +:+ c).
Proof. induction a as [|x a IH]; simpl; [reflexivity | now rewrite IH]. Qed.

Lemma ascii_eqb_eq (a b : ascii) : ascii_eqb a b = true <-> a = b.
Proof. unfold ascii_eqb. apply bool_decide_eq_true. Qed.

Lemma ascii_eqb_refl (a : ascii) : ascii_eqb a a = true.
Proof. now apply ascii_eqb_eq. Qed.

Lemma ascii_eqb_neq (a b : ascii) : ascii_eqb a b = false <-> a <> b.
Proof. unfold ascii_eqb. apply bool_decide_eq_false. Qed.

(** ** Records as mappings *)

(** The lookup of [b[key]] agrees with the mapping the Record stands for. *)
Lemma dict_get_fields_of (d : record) (f : string) :
  dict_get d f = fields_of d !! f.
Proof.
  unfold fields_of. induction d as [|[k v] d IH]; [reflexivity|].
  cbn [dict_get list_to_map foldr]. unfold bool_decide.
  destruct (decide_rel eq k f) as [->|Hne].
  - now rewrite lookup_insert_eq.
  - now rewrite lookup_insert_ne.
Qed.

Lemma field_text_cell_text (py_str : value -> string) (v : value) :
  field_text py_str v = cell_text py_str v.
Proof. now destruct v. Qed.

Lemma is_lone_can_encode (l : list value) :
  existsb is_lone l = negb (forallb can_encode l).
Proof.
  induction l as [|v l IH]; [reflexivity|].
  cbn [existsb forallb]. rewrite IH. now destruct v.
Qed.

Lemma has_fields_first_missing (fields : list string) (d : record) :
  has_fields fields d = true <-> first_missing fields d = None.
Proof.
  unfold has_fields, first_missing.
  induction fields as [|f fs IH]; [easy|].
  cbn [forallb find]. destruct (lacks d f); cbn [negb andb]; [easy | exact IH].
Qed.

Lemma first_missing_lacks (fields : list string) (d : record) (key : string) :
  first_missing fields d = Some key -> has_fields fields d = false.
Proof.
  intros H. destruct (has_fields fields d) eqn:E; [|reflexivity].
  apply has_fields_first_missing in E. congruence.
Qed.

(** ** The exporter's loop *)

Section ExporterFacts.

Variable py_str : value -> string.
Variables (path : string) (header fields : list string).

Lemma tuple_complete (d : record) :
  first_missing fields d = None ->
  eval_tuple (map (getitem (VDict d)) fields) = Ok (project fields d).
Proof.
  unfold project, first_missing, lacks.
  induction fields as [|f fs IH]; [reflexivity|].
  cbn [map find eval_tuple getitem]. rewrite dict_get_fields_of.
  destruct (fields_of d !! f) as [v|] eqn:E; [|discriminate].
  intros H. cbn [eval_tuple]. now rewrite (IH H).
Qed.

Lemma tuple_missing (d : record) (key : string) :
  first_missing fields d = Some key ->
  eval_tuple (map (getitem (VDict d)) fields) = Raise (KeyError key).
Proof.
  unfold first_missing, lacks.
  induction fields as [|f fs IH]; [discriminate|].
  cbn [map find eval_tuple getitem]. rewrite dict_get_fields_of.
  destruct (fields_of d !! f) as [v|] eqn:E.
  - intros H. cbn [eval_tuple]. now rewrite (IH H).
  - now intros [= ->].
Qed.

Lemma file_write_open (k : kernel) (w t : string) :
  csv_outfile k = Some (open_file path w) ->
  file_write (VStr t) k = (Ok tt, set_csv_outfile (open_file path (w +:+ t)) k).
Proof.
  intros H. unfold file_write, bind, lookup_name. rewrite H. reflexivity.
Qed.

Lemma file_write_lone (k : kernel) (w t : string) :
  csv_outfile k = Some (open_file path w) ->
  file_write (VStrLone t) k = (Raise UnicodeEncodeError, k).
Proof.
  intros H. unfold file_write, bind, lookup_name. rewrite H. reflexivity.
Qed.

Lemma for_each_cons {A} (x : A) (rest : list A) (body : A -> M unit) (k : kernel) :
  for_each (x :: rest) body k =
  match body x k with
  | (Ok _, k') => for_each rest body k'
  | (Raise e, k') => (Raise e, k')
  end.
Proof. reflexivity. Qed.

Lemma loop_body_ok (b : value) (row : list value) (k : kernel) (w : string) :
  csv_outfile k = Some (open_file path w) ->
  eval_tuple (map (getitem b) fields) = Ok row ->
  forallb can_encode row = true ->
  loop_body py_str fields b k =
  (Ok tt,
   set_csv_outfile
     (open_file path (w +:+ format_row (map (field_text py_str) row)))
     (set_var_b b k)).
Proof.
  intros Hk Hrow Henc. unfold loop_body, bind, lift. rewrite Hrow.
  unfold writerow. rewrite is_lone_can_encode, Henc. cbn [negb].
  now rewrite (file_write_open (set_var_b b k) w _ Hk).
Qed.

(** A row with a string that cannot be encoded: [write] raises and the
    buffer is as it was. *)
Lemma loop_body_lone (b : value) (row : list value) (k : kernel) (w : string) :
  csv_outfile k = Some (open_file path w) ->
  eval_tuple (map (getitem b) fields) = Ok row ->
  forallb can_encode row = false ->
  loop_body py_str fields b k = (Raise UnicodeEncodeError, set_var_b b k).
Proof.
  intros Hk Hrow Henc. unfold loop_body, bind, lift. rewrite Hrow.
  unfold writerow. rewrite is_lone_can_encode, Henc. cbn [negb].
  now rewrite (file_write_lone (set_var_b b k) w _ Hk).
Qed.

Lemma loop_body_raise (b : value) (e : exn) (k : kernel) :
  eval_tuple (map (getitem b) fields) = Raise e ->
  loop_body py_str fields b k = (Raise e, set_var_b b k).
Proof. intros Hrow. unfold loop_body, bind, lift. now rewrite Hrow. Qed.

(** Whatever the loop meets, the file object stays open on [path], what was
    written is only added to, and nothing else in the kernel but [b]
    changes. *)
Lemma loop_frame (items : list value) (k : kernel) (w : string) :
  csv_outfile k = Some (open_file path w) ->
  exists w',
    csv_outfile (snd (for_each items (loop_body py_str fields) k)) = Some (open_file path (w +:+ w'))
    /\ disk (snd (for_each items (loop_body py_str fields) k)) = disk k
    /\ bp_data (snd (for_each items (loop_body py_str fields) k)) = bp_data k
    /\ bp_request (snd (for_each items (loop_body py_str fields) k)) = bp_request k.
Proof.
  revert k w. induction items as [|b rest IH]; intros k w Hk.
  - exists "". simpl. now rewrite str_app_nil_r.
  - rewrite for_each_cons.
    destruct (eval_tuple (map (getitem b) fields)) as [row|e] eqn:Hrow.
    + destruct (forallb can_encode row) eqn:Henc.
      * rewrite (loop_body_ok b row k w Hk Hrow Henc).
        destruct (IH (set_csv_outfile
                        (open_file path (w +:+ format_row (map (field_text py_str) row)))
                        (set_var_b b k))
                    (w +:+ format_row (map (field_text py_str) row)) eq_refl)
          as (w' & H1 & H2 & H3 & H4).
        exists (format_row (map (field_text py_str) row) +:+ w').
        rewrite <- str_app_assoc. rewrite H1, H2, H3, H4. now repeat split.
      * rewrite (loop_body_lone b row k w Hk Hrow Henc).
        exists "". rewrite str_app_nil_r. now repeat split.
    + rewrite (loop_body_raise b e k Hrow).
      exists "". rewrite str_app_nil_r. now repeat split.
Qed.

Lemma field_texts_cells (d : record) :
  format_row (map (field_text py_str) (project fields d)) = row_of py_str fields d.
Proof.
  unfold row_of, cells_of.
  now rewrite (map_ext _ _ (field_text_cell_text py_str)).
Qed.

(** On Records the loop writes one row for each Record of the written
    prefix and ends as [export_outcome] says. *)
Lemma loop_records (recs : list record) (k : kernel) (w : string) :
  csv_outfile k = Some (open_file path w) ->
  fst (for_each (map VDict recs) (loop_body py_str fields) k) = export_outcome fields recs
  /\ csv_outfile (snd (for_each (map VDict recs) (loop_body py_str fields) k))
     = Some (open_file path
               (w +:+ concat_str (map (row_of py_str fields) (written_prefix fields recs)))).
Proof.
  revert k w. induction recs as [|d rest IH]; intros k w Hk.
  - simpl. now rewrite str_app_nil_r.
  - cbn [map]. rewrite for_each_cons. cbn [export_outcome written_prefix].
    unfold writable.
    destruct (first_missing fields d) as [key|] eqn:E.
    + rewrite (loop_body_raise _ _ k (tuple_missing d key E)).
      rewrite (first_missing_lacks _ _ _ E).
      simpl. now rewrite str_app_nil_r.
    + rewrite (proj2 (has_fields_first_missing fields d) E). cbn [andb].
      destruct (forallb can_encode (project fields d)) eqn:Henc.
      * rewrite (loop_body_ok _ _ k w Hk (tuple_complete d E) Henc).
        cbn [map concat_str]. rewrite field_texts_cells.
        rewrite <- str_app_assoc. apply IH. reflexivity.
      * rewrite (loop_body_lone _ _ k w Hk (tuple_complete d E) Henc).
        simpl. now rewrite str_app_nil_r.
Qed.

Lemma header_text : map (field_text py_str) (map VStr header) = header.
Proof. induction header as [|h t IH]; simpl; [reflexivity | now rewrite IH]. Qed.

Lemma header_encodes : existsb is_lone (map VStr header) = false.
Proof. induction header as [|h t IH]; simpl; [reflexivity | exact IH]. Qed.

(** The body of the [with] block, run on a freshly opened path file. *)
Lemma export_body_run (k1 : kernel) :
  csv_outfile k1 = Some (open_file path "") ->
  export_body py_str header fields k1 =
  match bp_data k1 with
  | None => (Raise (NameError "bp_data"), after_header path header k1)
  | Some data =>
      match iter data with
      | Ok items => for_each items (loop_body py_str fields) (after_header path header k1)
      | Raise e => (Raise e, after_header path header k1)
      end
  end.
Proof.
  intros Hk. unfold export_body. unfold bind at 1. unfold writerow at 1.
  rewrite header_encodes.
  rewrite (file_write_open k1 "" _ Hk). rewrite header_text. cbn [String.append].
  unfold bind at 1. unfold lookup_name. fold (after_header path header k1).
  change (bp_data (after_header path header k1)) with (bp_data k1).
  destruct (bp_data k1) as [data|]; [|reflexivity].
  unfold bind at 1. unfold lift.
  destruct (iter data) as [items|e]; reflexivity.
Qed.

Lemma with_open_run (body : M unit) (k : kernel) :
  with_open path body k =
  (fst (body (opened path k)), snd (file_close (snd (body (opened path k))))).
Proof.
  unfold with_open, open_w, opened, open_file.
  destruct (body _) as [r k2]. cbn [fst snd].
  now destruct (file_close k2).
Qed.

Lemma file_close_open (k : kernel) (w : string) :
  csv_outfile k = Some (open_file path w) ->
  snd (file_close k) =
  set_csv_outfile (closed_file path)
    (set_disk (<[path := default "" (disk k !! path) +:+ w]> (disk k)) k).
Proof. intros H. unfold file_close. now rewrite H. Qed.

(** The body leaves the file object open on [path] with some text [w] in
    its buffer and touches neither the disk nor the other names. *)
Lemma export_body_frame (k1 : kernel) :
  csv_outfile k1 = Some (open_file path "") ->
  exists w,
    csv_outfile (snd (export_body py_str header fields k1)) = Some (open_file path w)
    /\ disk (snd (export_body py_str header fields k1)) = disk k1
    /\ bp_data (snd (export_body py_str header fields k1)) = bp_data k1
    /\ bp_request (snd (export_body py_str header fields k1)) = bp_request k1.
Proof.
  intros Hk. rewrite (export_body_run k1 Hk).
  destruct (bp_data k1) as [data|] eqn:Hd.
  - destruct (iter data) as [items|e].
    + destruct (loop_frame items (after_header path header k1) (format_row header) eq_refl)
        as (w' & H1 & H2 & H3 & H4).
      exists (format_row header +:+ w'). rewrite H1, H2, H3, H4.
      now repeat split.
    + exists (format_row header). now repeat split.
  - exists (format_row header). now repeat split.
Qed.

(** What the whole export leaves, in terms of what its body wrote. *)
Lemma csv_export_frame (k : kernel) :
  exists w,
    csv_outfile (snd (export_body py_str header fields (opened path k)))
      = Some (open_file path w)
    /\ fst (csv_export py_str path header fields k)
       = fst (export_body py_str header fields (opened path k))
    /\ csv_outfile (snd (csv_export py_str path header fields k))
       = Some (closed_file path)
    /\ disk (snd (csv_export py_str path header fields k)) = <[path := w]> (disk k)
    /\ bp_data (snd (csv_export py_str path header fields k)) = bp_data k
    /\ bp_request (snd (csv_export py_str path header fields k)) = bp_request k.
Proof.
  destruct (export_body_frame (opened path k) eq_refl) as (w & H1 & H2 & H3 & H4).
  exists w. unfold csv_export. rewrite with_open_run. cbn [fst snd].
  rewrite (file_close_open _ w H1). cbn [csv_outfile disk bp_data bp_request
    set_csv_outfile set_disk]. rewrite H2, H3, H4.
  cbn [opened csv_outfile disk bp_data bp_request set_csv_outfile set_disk].
  rewrite lookup_insert_eq, insert_insert_eq. cbn [default String.append].
  now repeat split.
Qed.

(** The export of a ResultSet: header, then one row for each Record up to
    the first that is not writable. *)
Lemma csv_export_records (k : kernel) (recs : list record) :
  bp_data k = Some (VList (map VDict recs)) ->
  fst (csv_export py_str path header fields k) = export_outcome fields recs
  /\ file_content (snd (csv_export py_str path header fields k)) path
     = Some (format_row header
             +:+ concat_str (map (row_of py_str fields) (written_prefix fields recs))).
Proof.
  intros Hd.
  destruct (csv_export_frame k) as (w & H1 & H2 & _ & H4 & _).
  unfold file_content. rewrite H2, H4, lookup_insert_eq.
  rewrite (export_body_run (opened path k) eq_refl) in H1 |- *.
  change (bp_data (opened path k)) with (bp_data k) in H1 |- *.
  rewrite Hd in H1 |- *. cbn [iter] in H1 |- *.
  destruct (loop_records recs (after_header path header (opened path k)) (format_row header) eq_refl)
    as [Hr Hw].
  rewrite Hw in H1. injection H1 as <-. now split.
Qed.

End ExporterFacts.

(** ** Records that can and cannot be written *)

Lemma writable_parts (fields : list string) (d : record) :
  writable fields d = true ->
  first_missing fields d = None /\ forallb can_encode (project fields d) = true.
Proof.
  unfold writable. intros H. apply andb_prop in H. destruct H as [H1 H2].
  split; [now apply has_fields_first_missing | exact H2].
Qed.

Lemma written_prefix_all (fields : list string) (recs : list record) :
  forallb (writable fields) recs = true ->
  written_prefix fields recs = recs /\ export_outcome fields recs = Ok tt.
Proof.
  induction recs as [|d rest IH]; [now split|].
  cbn [forallb written_prefix export_outcome].
  intros H. apply andb_prop in H. destruct H as [Hd Hrest].
  rewrite Hd. destruct (writable_parts _ _ Hd) as [-> ->].
  destruct (IH Hrest) as [-> ->]. now split.
Qed.

Lemma written_prefix_stop (fields : list string) (pre post : list record)
    (d : record) :
  forallb (writable fields) pre = true ->
  writable fields d = false ->
  written_prefix fields (pre ++ d :: post) = pre
  /\ export_outcome fields (pre ++ d :: post)
     = match first_missing fields d with
       | Some key => Raise (KeyError key)
       | None => Raise UnicodeEncodeError
       end.
Proof.
  intros Hpre Hd. induction pre as [|x pre IH].
  - cbn [app written_prefix export_outcome]. rewrite Hd. split; [reflexivity|].
    destruct (first_missing fields d) eqn:E; [reflexivity|].
    unfold writable in Hd.
    rewrite (proj2 (has_fields_first_missing fields d) E) in Hd.
    cbn [andb] in Hd. now rewrite Hd.
  - cbn [forallb] in Hpre. apply andb_prop in Hpre. destruct Hpre as [Hx Hpre].
    cbn [app written_prefix export_outcome]. rewrite Hx.
    destruct (writable_parts _ _ Hx) as [-> ->].
    destruct (IH Hpre) as [-> ->]. now split.
Qed.

Lemma written_prefix_take (fields : list string) (recs : list record) :
  written_prefix fields recs
  = take (length (written_prefix fields recs)) recs.
Proof.
  induction recs as [|d rest IH]; [reflexivity|].
  cbn [written_prefix]. destruct (writable fields d); [|reflexivity].
  cbn [length take]. now rewrite <- IH.
Qed.

Lemma written_prefix_length (fields : list string) (recs : list record) :
  (length (written_prefix fields recs) <= length recs)%nat.
Proof.
  induction recs as [|d rest IH]; [reflexivity|].
  cbn [written_prefix]. destruct (writable fields d); cbn [length]; lia.
Qed.

Lemma written_prefix_writable (fields : list string) (recs : list record) :
  forallb (writable fields) (written_prefix fields recs) = true.
Proof.
  induction recs as [|d rest IH]; [reflexivity|].
  cbn [written_prefix]. destruct (writable fields d) eqn:E; [|reflexivity].
  cbn [forallb]. now rewrite E.
Qed.

(** The Record at which the written prefix ends is not writable. *)
Lemma written_prefix_next (fields : list string) (recs : list record) (d : record) :
  recs !! length (written_prefix fields recs) = Some d ->
  writable fields d = false.
Proof.
  induction recs as [|x rest IH]; [discriminate|].
  cbn [written_prefix]. destruct (writable fields x) eqn:E.
  - cbn [length]. exact IH.
  - cbn [length]. now intros [= <-].
Qed.

Lemma export_outcome_ok (fields : list string) (recs : list record) :
  export_outcome fields recs = Ok tt -> written_prefix fields recs = recs.
Proof.
  induction recs as [|d rest IH]; [reflexivity|].
  cbn [written_prefix export_outcome]. unfold writable.
  destruct (first_missing fields d) eqn:E; [discriminate|].
  rewrite (proj2 (has_fields_first_missing fields d) E). cbn [andb].
  destruct (forallb can_encode (project fields d)); [|discriminate].
  intros H. now rewrite (IH H).
Qed.

(** The header line and the Records' lines are the writer's lines for the
    header and for the Records' fields. *)
Lemma written_rows (py_str : value -> string) (header fields : list string)
    (recs : list record) :
  format_row header +:+ concat_str (map (row_of py_str fields) recs)
  = concat_str (map format_row (header :: map (cells_of py_str fields) recs)).
Proof.
  cbn [map concat_str]. f_equal.
  induction recs as [|d rest IH]; [reflexivity|].
  cbn [map concat_str]. now rewrite IH.
Qed.

Lemma lookup_map {A B} (f : A -> B) (l : list A) (i : nat) :
  map f l !! i = f <$> (l !! i).
Proof.
  revert i. induction l as [|x l IH]; intros [|i]; try reflexivity. apply IH.
Qed.
(** ** The CSV writer read back *)

Section ReaderFacts.

Import Reference.

Lemma reader_run_app (r : reader) (s1 s2 : string) :
  reader_run r (s1 +:+ s2) = reader_run (reader_run r s1) s2.
Proof. revert r. induction s1 as [|c s1 IH]; intros r; simpl; [reflexivity | apply IH]. Qed.

Lemma not_special (c : ascii) :
  is_special c = false ->
  is_eol c = false /\ ascii_eqb c COMMA = false /\ ascii_eqb c DQUOTE = false.
Proof.
  unfold is_special, is_eol. intros H.
  repeat (apply orb_false_elim in H; destruct H as [H ?]).
  repeat split; try assumption. now apply orb_false_intro.
Qed.

Lemma escape_plain (s : string) :
  str_existsb is_special s = false -> escape_field s = s.
Proof.
  induction s as [|c s IH]; simpl; [reflexivity|].
  intros H. apply orb_false_elim in H. destruct H as [Hc Hs].
  destruct (not_special c Hc) as (_ & _ & ->). now rewrite IH.
Qed.

(** Inside quotes the reader takes back what [escape_field] wrote. *)
Lemma run_escaped (s f : string) (row : list string) (rows : list (list string)) :
  reader_run
    {| rd_state := InQuotedField; rd_field := f; rd_row := row; rd_rows := rows |}
    (escape_field s)
  = {| rd_state := InQuotedField; rd_field := f +:+ s; rd_row := row; rd_rows := rows |}.
Proof.
  revert f. induction s as [|c s IH]; intros f; simpl.
  - now rewrite str_app_nil_r.
  - destruct (ascii_eqb c DQUOTE) eqn:E.
    + apply ascii_eqb_eq in E. subst c. simpl.
      unfold reader_step at 2. simpl. unfold reader_step at 1. simpl.
      unfold add_char. simpl. rewrite IH. now rewrite str_app_assoc.
    + simpl. unfold reader_step at 1. simpl. rewrite E.
      unfold add_char. simpl. rewrite IH. now rewrite str_app_assoc.
Qed.

(** Outside quotes it takes a text without special characters as it is. *)
Lemma run_plain (s f : string) (row : list string) (rows : list (list string)) :
  str_existsb is_special s = false ->
  reader_run
    {| rd_state := InField; rd_field := f; rd_row := row; rd_rows := rows |} s
  = {| rd_state := InField; rd_field := f +:+ s; rd_row := row; rd_rows := rows |}.
Proof.
  revert f. induction s as [|c s IH]; intros f H; simpl.
  - now rewrite str_app_nil_r.
  - simpl in H. apply orb_false_elim in H. destruct H as [Hc Hs].
    destruct (not_special c Hc) as (E1 & E2 & _).
    unfold reader_step at 1. simpl. rewrite E1, E2.
    unfold add_char. simpl. rewrite (IH _ Hs). now rewrite str_app_assoc.
Qed.

(** A field and the delimiter after it. *)
Lemma run_field_comma (s rest : string) (st : reader_state)
    (row : list string) (rows : list (list string)) :
  at_start st ->
  reader_run
    {| rd_state := st; rd_field := ""; rd_row := row; rd_rows := rows |}
    (join_append_data s false +:+ String COMMA rest)
  = reader_run
      {| rd_state := StartField; rd_field := ""; rd_row := row ++ [s]; rd_rows := rows |}
      rest.
Proof.
  intros Hst. unfold join_append_data. cbn [orb].
  destruct (str_existsb is_special s) eqn:Hsp.
  - (* quoted *)
    cbn [str_of_char String.append reader_run].
    assert (Hq : reader_step
              {| rd_state := st; rd_field := ""; rd_row := row; rd_rows := rows |}
              DQUOTE
            = {| rd_state := InQuotedField; rd_field := ""; rd_row := row; rd_rows := rows |}).
    { destruct Hst as [-> | ->]; reflexivity. }
    rewrite Hq, !reader_run_app, run_escaped. reflexivity.
  - (* bare *)
    rewrite (escape_plain s Hsp).
    destruct s as [|c s].
    + destruct Hst as [-> | ->]; reflexivity.
    + simpl in Hsp. apply orb_false_elim in Hsp. destruct Hsp as [Hc Hs].
      destruct (not_special c Hc) as (E1 & E2 & E3).
      cbn [String.append reader_run].
      assert (Hq : reader_step
                {| rd_state := st; rd_field := ""; rd_row := row; rd_rows := rows |} c
              = {| rd_state := InField; rd_field := str_of_char c;
                   rd_row := row; rd_rows := rows |}).
      { destruct Hst as [-> | ->]; unfold reader_step; cbn [rd_state];
          unfold at_record_start, at_field_start; now rewrite E1, E2, E3. }
      rewrite Hq, reader_run_app, (run_plain s _ _ _ Hs).
      cbn [reader_run]. unfold reader_step. cbn [rd_state]. reflexivity.
Qed.

(** The last field of a record and the line terminator after it; at the
    start of a record the field may not be a bare empty one. *)
Lemma run_field_eol (s rest : string) (st : reader_state)
    (row : list string) (rows : list (list string)) :
  at_start st ->
  st = StartField \/ s <> "" ->
  reader_run
    {| rd_state := st; rd_field := ""; rd_row := row; rd_rows := rows |}
    (join_append_data s false +:+ CRLF +:+ rest)
  = reader_run
      {| rd_state := StartRecord; rd_field := ""; rd_row := [];
         rd_rows := rows ++ [row ++ [s]] |}
      rest.
Proof.
  intros Hst Hne. unfold join_append_data. cbn [orb].
  destruct (str_existsb is_special s) eqn:Hsp.
  - cbn [str_of_char String.append reader_run].
    assert (Hq : reader_step
              {| rd_state := st; rd_field := ""; rd_row := row; rd_rows := rows |}
              DQUOTE
            = {| rd_state := InQuotedField; rd_field := ""; rd_row := row; rd_rows := rows |}).
    { destruct Hst as [-> | ->]; reflexivity. }
    rewrite Hq, !reader_run_app, run_escaped. reflexivity.
  - rewrite (escape_plain s Hsp).
    destruct s as [|c s].
    + destruct Hne as [-> | Hne]; [reflexivity | now destruct Hne].
    + simpl in Hsp. apply orb_false_elim in Hsp. destruct Hsp as [Hc Hs].
      destruct (not_special c Hc) as (E1 & E2 & E3).
      cbn [String.append reader_run].
      assert (Hq : reader_step
                {| rd_state := st; rd_field := ""; rd_row := row; rd_rows := rows |} c
              = {| rd_state := InField; rd_field := str_of_char c;
                   rd_row := row; rd_rows := rows |}).
      { destruct Hst as [-> | ->]; unfold reader_step; cbn [rd_state];
          unfold at_record_start, at_field_start; now rewrite E1, E2, E3. }
      rewrite Hq, reader_run_app, (run_plain s _ _ _ Hs).
      reflexivity.
Qed.

Lemma str_is_empty_app (a b : string) :
  str_is_empty (a +:+ b) = str_is_empty a && str_is_empty b.
Proof. now destruct a. Qed.

Lemma join_cons2 (sep a b : string) (l : list string) :
  join sep (a :: b :: l) = a +:+ sep +:+ join sep (b :: l).
Proof. reflexivity. Qed.

(** The fields of a record after its first. *)
Lemma run_fields (cells : list string) (rest : string)
    (row : list string) (rows : list (list string)) :
  cells <> [] ->
  reader_run
    {| rd_state := StartField; rd_field := ""; rd_row := row; rd_rows := rows |}
    (join (str_of_char COMMA) (map (fun f => join_append_data f false) cells)
     +:+ CRLF +:+ rest)
  = reader_run
      {| rd_state := StartRecord; rd_field := ""; rd_row := [];
         rd_rows := rows ++ [row ++ cells] |}
      rest.
Proof.
  revert row. induction cells as [|s [|s2 t] IH]; intros row Hne.
  - now destruct Hne.
  - cbn [map join]. apply run_field_eol; [now left | now left].
  - cbn [map]. rewrite join_cons2, !str_app_assoc. cbn [str_of_char String.append].
    rewrite run_field_comma by now left.
    change (join_append_data s2 false :: map (fun f => join_append_data f false) t)
      with (map (fun f => join_append_data f false) (s2 :: t)).
    rewrite IH by discriminate. now rewrite <- app_assoc.
Qed.

Lemma join_append_data_empty (s : string) :
  str_is_empty (join_append_data s false) = str_is_empty s.
Proof.
  unfold join_append_data. cbn [orb].
  destruct (str_existsb is_special s) eqn:Hsp.
  - destruct s; [discriminate | reflexivity].
  - now rewrite (escape_plain s Hsp).
Qed.

(** One line of the writer is one record of the reader. *)
Lemma run_record (cells : list string) (rest : string) (rows : list (list string)) :
  reader_run
    {| rd_state := StartRecord; rd_field := ""; rd_row := []; rd_rows := rows |}
    (format_row cells +:+ rest)
  = reader_run
      {| rd_state := StartRecord; rd_field := ""; rd_row := [];
         rd_rows := rows ++ [cells] |}
      rest.
Proof.
  unfold format_row, record_text. rewrite str_app_assoc.
  destruct cells as [|s [|s2 t]].
  - reflexivity.
  - cbn [map join]. rewrite bool_decide_eq_true_2 by discriminate. cbn [andb].
    rewrite join_append_data_empty.
    destruct s as [|c s].
    + reflexivity.
    + cbn [str_is_empty]. apply (run_field_eol _ _ StartRecord []); [now right|].
      right. discriminate.
  - rewrite bool_decide_eq_true_2 by discriminate. cbn [andb map].
    rewrite join_cons2, str_is_empty_app, str_is_empty_app. cbn [str_of_char str_is_empty].
    rewrite !andb_false_r. rewrite !str_app_assoc. cbn [str_of_char String.append].
    rewrite run_field_comma by now right.
    change (join_append_data s2 false :: map (fun f => join_append_data f false) t)
      with (map (fun f => join_append_data f false) (s2 :: t)).
    now rewrite run_fields by discriminate.
Qed.

Lemma run_records (rows rows0 : list (list string)) :
  reader_run
    {| rd_state := StartRecord; rd_field := ""; rd_row := []; rd_rows := rows0 |}
    (concat_str (map format_row rows))
  = {| rd_state := StartRecord; rd_field := ""; rd_row := [];
       rd_rows := rows0 ++ rows |}.
Proof.
  revert rows0. induction rows as [|r rows IH]; intros rows0.
  - cbn. now rewrite app_nil_r.
  - cbn [map concat_str]. rewrite run_record, IH. now rewrite <- app_assoc.
Qed.

(** The reader gives back the rows the writer was given. *)
Lemma csv_reader_rows (rows : list (list string)) :
  csv_reader (concat_str (map format_row rows)) = rows.
Proof. unfold csv_reader, reader_init. now rewrite run_records. Qed.

End ReaderFacts.

(** ** The lines of the written file *)

Section LinesFacts.

Import Reference.

Lemma str_existsb_app (p : ascii -> bool) (a b : string) :
  str_existsb p (a +:+ b) = str_existsb p a || str_existsb p b.
Proof.
  induction a as [|c a IH]; simpl; [reflexivity|].
  now rewrite IH, orb_assoc.
Qed.

Lemma no_newline_app (a b : string) :
  no_newline (a +:+ b) = no_newline a && no_newline b.
Proof. unfold no_newline. now rewrite str_existsb_app, negb_orb. Qed.

Lemma no_newline_escape (s : string) :
  no_newline (escape_field s) = no_newline s.
Proof.
  unfold no_newline. f_equal.
  induction s as [|c s IH]; simpl; [reflexivity|].
  destruct (ascii_eqb c DQUOTE) eqn:E; simpl; rewrite IH.
  - apply ascii_eqb_eq in E. now subst c.
  - reflexivity.
Qed.

Lemma no_newline_field (s : string) (quoted : bool) :
  no_newline (join_append_data s quoted) = no_newline s.
Proof.
  unfold join_append_data.
  destruct (quoted || str_existsb is_special s).
  - rewrite !no_newline_app, no_newline_escape.
    change (no_newline (str_of_char DQUOTE)) with true.
    now rewrite andb_true_r.
  - apply no_newline_escape.
Qed.

Lemma no_newline_join (parts : list string) :
  forallb no_newline parts = true ->
  no_newline (join (str_of_char COMMA) parts) = true.
Proof.
  induction parts as [|p [|p2 t] IH]; intros H.
  - reflexivity.
  - simpl in H. now rewrite andb_true_r in H.
  - rewrite join_cons2, !no_newline_app.
    cbn [forallb] in H. apply andb_prop in H. destruct H as [-> H].
    now rewrite (IH H).
Qed.

Lemma no_newline_record (cells : list string) :
  forallb no_newline cells = true ->
  no_newline (record_text cells) = true.
Proof.
  intros H. unfold record_text.
  destruct (bool_decide (cells <> []) && _); [reflexivity|].
  apply no_newline_join. rewrite <- H. clear H.
  induction cells as [|c cells IH]; [reflexivity|].
  cbn [map forallb]. now rewrite no_newline_field, IH.
Qed.

(** A line without line breaks, its terminator, and the text after it. *)
Lemma lines_from_line (t cur rest : string) :
  no_newline t = true ->
  lines_from cur (t +:+ CRLF +:+ rest) = (cur +:+ t) :: lines_from "" rest.
Proof.
  revert cur. induction t as [|c t IH]; intros cur H.
  - simpl. now rewrite str_app_nil_r.
  - unfold no_newline in H. cbn [str_existsb] in H.
    rewrite negb_orb in H. apply andb_prop in H. destruct H as [Hc Ht].
    unfold is_eol in Hc. rewrite negb_orb in Hc. apply andb_prop in Hc.
    destruct Hc as [Hcr Hlf].
    apply negb_true_iff in Hcr, Hlf.
    cbn [String.append lines_from]. rewrite Hlf, Hcr.
    rewrite (IH _ Ht). now rewrite str_app_assoc.
Qed.

(** Written rows whose fields have no line break take one line each. *)
Lemma text_lines_rows (rows : list (list string)) :
  forallb (forallb no_newline) rows = true ->
  text_lines (concat_str (map format_row rows)) = map record_text rows.
Proof.
  unfold text_lines. induction rows as [|r rows IH]; intros H.
  - reflexivity.
  - cbn [forallb] in H. apply andb_prop in H. destruct H as [Hr Hrows].
    cbn [map concat_str]. unfold format_row at 1. rewrite str_app_assoc.
    rewrite lines_from_line by now apply no_newline_record.
    now rewrite (IH Hrows).
Qed.

End LinesFacts.
(** ** The query string decoded *)

Section UrlFacts.

Import Url Reference.

Ltac each_ascii c := destruct c as [[|] [|] [|] [|] [|] [|] [|] [|]].

Lemma replace_char_app (a b : ascii) (s t : string) :
  replace_char a b (s +:+ t) = replace_char a b s +:+ replace_char a b t.
Proof. induction s as [|c s IH]; simpl; [reflexivity | now rewrite IH]. Qed.

Lemma quote_plus_cons (c : ascii) (s : string) :
  quote_plus (String c s) = enc_char c +:+ quote_plus s.
Proof.
  unfold quote_plus. cbn [quote]. rewrite replace_char_app. f_equal.
  each_ascii c; reflexivity.
Qed.

Lemma unquote_other (c : ascii) (r : string) :
  ascii_eqb c "%" = false -> unquote (String c r) = String c (unquote r).
Proof.
  intros H. destruct r as [|h1 [|h2 r2]]; cbn [unquote]; rewrite ?H; reflexivity.
Qed.




Lemma str_forallb_app (p : ascii -> bool) (a b : string) :
  str_forallb p (a +:+ b) = str_forallb p a && str_forallb p b.
Proof.
  induction a as [|c a IH]; simpl; [reflexivity|].
  now rewrite IH, andb_assoc.
Qed.



Lemma partition_none (sep : ascii) (a : string) :
  str_existsb (fun x => ascii_eqb x sep) a = false ->
  partition sep a = (a, None).
Proof.
  induction a as [|c a IH]; simpl; [reflexivity|].
  intros H. apply orb_false_elim in H. destruct H as [-> Ha].
  now rewrite (IH Ha).
Qed.

Lemma partition_app (sep : ascii) (a b : string) :
  str_existsb (fun x => ascii_eqb x sep) a = false ->
  partition sep (a +:+ String sep b) = (a, Some b).
Proof.
  induction a as [|c a IH]; simpl.
  - now rewrite ascii_eqb_refl.
  - intros H. apply orb_false_elim in H. destruct H as [-> Ha].
    now rewrite (IH Ha).
Qed.

Lemma split_none (sep : ascii) (a : string) :
  str_existsb (fun x => ascii_eqb x sep) a = false ->
  split sep a = [a].
Proof.
  induction a as [|c a IH]; simpl; [reflexivity|].
  intros H. apply orb_false_elim in H. destruct H as [-> Ha].
  now rewrite (IH Ha).
Qed.






(** *** [requote_uri] on a URL that needs no requoting *)

Lemma canonical_app (a b : string) :
  canonical a -> canonical b -> canonical (a +:+ b).
Proof.
  intros Ha Hb. induction Ha as [|c s H1 H2 Ha IH|c s H1 Ha IH].
  - exact Hb.
  - cbn [String.append]. now apply canonical_char.
  - rewrite str_app_assoc. now apply canonical_percent.
Qed.

Lemma unquote_unreserved_percent (c : ascii) (s u : string) :
  is_unreserved c = false ->
  unquote_unreserved s = Some u ->
  unquote_unreserved (percent c +:+ s) = Some (percent c +:+ u).
Proof.
  intros Hc Hs.
  each_ascii c; first [ discriminate Hc | cbn; rewrite Hs; reflexivity ].
Qed.

Lemma unquote_unreserved_canonical (s : string) :
  canonical s -> unquote_unreserved s = Some s.
Proof.
  induction 1 as [|c s H1 H2 Ha IH|c s H1 Ha IH].
  - reflexivity.
  - cbn [unquote_unreserved]. now rewrite H1, IH.
  - now apply unquote_unreserved_percent.
Qed.

Lemma quote_percent (c : ascii) (s : string) :
  quote (fun x => str_mem x safe_with_percent) (percent c +:+ s)
  = percent c +:+ quote (fun x => str_mem x safe_with_percent) s.
Proof. each_ascii c; reflexivity. Qed.

Lemma quote_canonical (s : string) :
  canonical s -> quote (fun x => str_mem x safe_with_percent) s = s.
Proof.
  induction 1 as [|c s H1 H2 Ha IH|c s H1 Ha IH].
  - reflexivity.
  - cbn [quote]. now rewrite H2, IH.
  - now rewrite quote_percent, IH.
Qed.

Lemma requote_uri_canonical (s : string) : canonical s -> requote_uri s = s.
Proof.
  intros H. unfold requote_uri.
  rewrite (unquote_unreserved_canonical s H). now apply quote_canonical.
Qed.

Lemma canonical_enc_char (c : ascii) (s : string) :
  canonical s -> canonical (enc_char c +:+ s).
Proof.
  intros H. unfold enc_char.
  destruct (is_unreserved c) eqn:Hu.
  - apply canonical_char; [|now rewrite Hu|exact H].
    apply ascii_eqb_neq. intros ->. discriminate Hu.
  - destruct (ascii_eqb c " ").
    + now apply canonical_char.
    + now apply canonical_percent.
Qed.

Lemma canonical_quote_plus (s : string) : canonical (quote_plus s).
Proof.
  induction s as [|c s IH]; [constructor|].
  rewrite quote_plus_cons. now apply canonical_enc_char.
Qed.

Lemma canonical_urlencode (items : list (string * string)) :
  canonical (urlencode items).
Proof.
  unfold urlencode. fold enc_pair.
  assert (Hp : forall kv, canonical (enc_pair kv)).
  { intros kv. unfold enc_pair.
    apply canonical_app; [apply canonical_quote_plus|].
    apply canonical_char; [reflexivity | reflexivity | apply canonical_quote_plus]. }
  induction items as [|kv [|kv2 t] IH].
  - constructor.
  - apply Hp.
  - cbn [map]. rewrite join_cons2. apply canonical_app; [apply Hp|].
    apply canonical_char; [reflexivity | reflexivity | exact IH].
Qed.

Lemma plain_char_facts (c : ascii) :
  plain_char c = true ->
  ascii_eqb c "%" = false
  /\ ascii_eqb c "?" = false
  /\ is_unreserved c || str_mem c safe_with_percent = true.
Proof. each_ascii c; intros H; first [ discriminate H | now repeat split ]. Qed.

Lemma canonical_plain (base : string) : url_plain base = true -> canonical base.
Proof.
  unfold url_plain. induction base as [|c s IH]; [constructor|].
  cbn [str_forallb]. intros H. apply andb_prop in H. destruct H as [Hc Hs].
  destruct (plain_char_facts c Hc) as (H1 & _ & H3).
  now apply canonical_char; [| |apply IH].
Qed.

Lemma plain_no_question (base : string) :
  url_plain base = true ->
  str_existsb (fun x => ascii_eqb x "?") base = false.
Proof.
  unfold url_plain. induction base as [|c s IH]; [reflexivity|].
  cbn [str_forallb str_existsb]. intros H. apply andb_prop in H.
  destruct H as [Hc Hs].
  destruct (plain_char_facts c Hc) as (_ & -> & _). now apply IH.
Qed.

Lemma urlencode_empty (items : list (string * string)) :
  str_is_empty (urlencode items) = bool_decide (items = []).
Proof.
  unfold urlencode. fold enc_pair. destruct items as [|kv [|kv2 t]].
  - reflexivity.
  - cbn [map join]. unfold enc_pair. rewrite str_is_empty_app.
    cbn [String.append str_is_empty]. now rewrite andb_false_r.
  - cbn [map]. rewrite join_cons2. unfold enc_pair at 1.
    rewrite !str_is_empty_app. cbn [String.append str_is_empty].
    now rewrite !andb_false_r.
Qed.

(** *** [requote_uri] on any URL *)

Lemma str_strong_ind (P : string -> Prop) :
  (forall s, (forall t, (String.length t < String.length s)%nat -> P t) -> P s) ->
  forall s, P s.
Proof.
  intros H s. remember (String.length s) as n eqn:Hn.
  revert s Hn. induction n as [n IH] using lt_wf_ind. intros s ->.
  apply H. intros t Ht. exact (IH _ Ht t eq_refl).
Qed.

Lemma ascii_eqb_sym (a b : ascii) : ascii_eqb a b = ascii_eqb b a.
Proof.
  destruct (ascii_eqb a b) eqn:E.
  - apply ascii_eqb_eq in E. subst. now rewrite ascii_eqb_refl.
  - apply ascii_eqb_neq in E. symmetry. apply ascii_eqb_neq. congruence.
Qed.

Lemma str_mem_existsb (c : ascii) (s : string) :
  str_mem c s = str_existsb (fun x => ascii_eqb x c) s.
Proof.
  unfold str_mem. induction s as [|d s IH]; [reflexivity|].
  cbn [str_existsb]. now rewrite IH, ascii_eqb_sym.
Qed.

Lemma str_mem_app (c : ascii) (a b : string) :
  str_mem c (a +:+ b) = str_mem c a || str_mem c b.
Proof. unfold str_mem. apply str_existsb_app. Qed.

Lemma unquote_unreserved_other (c : ascii) (r : string) :
  ascii_eqb c "%" = false ->
  unquote_unreserved (String c r) = String c <$> unquote_unreserved r.
Proof. intros H. cbn [unquote_unreserved]. now rewrite H. Qed.

Lemma unquote_unreserved_escape (h1 h2 : ascii) (r2 : string) :
  unquote_unreserved (String "%" (String h1 (String h2 r2)))
  = if is_alnum h1 && is_alnum h2 then
      match hex_val h1, hex_val h2 with
      | Some a, Some b =>
          if is_unreserved (byte (a * 16 + b))
          then String (byte (a * 16 + b)) <$> unquote_unreserved r2
          else String "%" <$> unquote_unreserved (String h1 (String h2 r2))
      | _, _ => None
      end
    else String "%" <$> unquote_unreserved (String h1 (String h2 r2)).
Proof. reflexivity. Qed.

Lemma unquote_unreserved_short (r : string) :
  (String.length r < 2)%nat ->
  unquote_unreserved (String "%" r) = String "%" <$> unquote_unreserved r.
Proof.
  destruct r as [|h1 [|h2 r2]]; cbn [String.length]; intros H;
    [reflexivity | reflexivity | lia].
Qed.

(** A question mark after the text ends whatever escape was open. *)
Lemma unquote_unreserved_question (s t : string) :
  unquote_unreserved (s +:+ String "?" t)
  = match unquote_unreserved s, unquote_unreserved t with
    | Some a, Some b => Some (a +:+ String "?" b)
    | _, _ => None
    end.
Proof.
  induction s as [s IH] using str_strong_ind.
  destruct s as [|c r].
  - cbn [String.append]. rewrite unquote_unreserved_other by reflexivity.
    cbn [unquote_unreserved]. now destruct (unquote_unreserved t).
  - cbn [String.append].
    destruct (ascii_eqb c "%") eqn:Ec.
    + apply ascii_eqb_eq in Ec. subst c.
      destruct r as [|h1 [|h2 r2]].
      * cbn [String.append].
        assert (E : unquote_unreserved (String "%" (String "?" t))
                    = String "%" <$> unquote_unreserved (String "?" t)).
        { destruct t as [|h2 r2]; reflexivity. }
        rewrite E, unquote_unreserved_other by reflexivity.
        cbn [unquote_unreserved]. now destruct (unquote_unreserved t).
      * cbn [String.append]. rewrite unquote_unreserved_escape.
        replace (is_alnum h1 && is_alnum "?") with false
          by (now rewrite andb_false_r).
        change (String h1 (String "?" t)) with (String h1 "" +:+ String "?" t).
        rewrite (IH (String h1 "")) by (cbn; lia).
        rewrite (unquote_unreserved_short (String h1 "")) by (cbn; lia).
        destruct (unquote_unreserved (String h1 "")); [|reflexivity].
        now destruct (unquote_unreserved t).
      * cbn [String.append]. rewrite !unquote_unreserved_escape.
        change (String h1 (String h2 (r2 +:+ String "?" t)))
          with (String h1 (String h2 r2) +:+ String "?" t).
        rewrite (IH (String h1 (String h2 r2))) by (cbn; lia).
        rewrite (IH r2) by (cbn; lia).
        destruct (is_alnum h1 && is_alnum h2).
        -- destruct (hex_val h1), (hex_val h2); try reflexivity.
           destruct (is_unreserved _).
           ++ destruct (unquote_unreserved r2); [|reflexivity].
              now destruct (unquote_unreserved t).
           ++ destruct (unquote_unreserved (String h1 (String h2 r2)));
                [|reflexivity].
              now destruct (unquote_unreserved t).
        -- destruct (unquote_unreserved (String h1 (String h2 r2)));
             [|reflexivity].
           now destruct (unquote_unreserved t).
    + rewrite !unquote_unreserved_other by exact Ec.
      rewrite (IH r) by (cbn; lia).
      destruct (unquote_unreserved r); [|reflexivity].
      now destruct (unquote_unreserved t).
Qed.

(** Only an escape is ever removed: a character that is neither a letter,
    a digit nor the percent sign stays. *)
Lemma unquote_unreserved_keeps (c : ascii) (s u : string) :
  is_alnum c = false -> ascii_eqb c "%" = false ->
  unquote_unreserved s = Some u ->
  str_mem c s = true -> str_mem c u = true.
Proof.
  intros Ha Hp. revert u.
  induction s as [s IH] using str_strong_ind. intros u Hu Hm.
  destruct s as [|d r]; [discriminate Hm|].
  assert (Hkeep : forall x, String d <$> unquote_unreserved r = Some x ->
                            str_mem c x = true).
  { intros x Hx. destruct (unquote_unreserved r) as [v|] eqn:Ev; [|discriminate].
    injection Hx as <-. unfold str_mem in Hm |- *. cbn [str_existsb] in Hm |- *.
    destruct (ascii_eqb c d); [reflexivity|]. cbn [orb] in Hm |- *.
    exact (IH r ltac:(cbn; lia) v Ev Hm). }
  destruct (ascii_eqb d "%") eqn:Ed.
  - apply ascii_eqb_eq in Ed. subst d.
    destruct r as [|h1 [|h2 r2]].
    + apply Hkeep. exact Hu.
    + apply Hkeep. exact Hu.
    + rewrite unquote_unreserved_escape in Hu.
      destruct (is_alnum h1 && is_alnum h2) eqn:E12; [|now apply Hkeep].
      destruct (hex_val h1), (hex_val h2); try discriminate Hu.
      destruct (is_unreserved _); [|now apply Hkeep].
      destruct (unquote_unreserved r2) as [v|] eqn:Ev; [|discriminate Hu].
      injection Hu as <-.
      apply andb_prop in E12. destruct E12 as [E1 E2].
      unfold str_mem in Hm |- *. cbn [str_existsb] in Hm |- *.
      rewrite Hp in Hm. cbn [orb] in Hm.
      assert (N1 : ascii_eqb c h1 = false)
        by (apply ascii_eqb_neq; intros ->; congruence).
      assert (N2 : ascii_eqb c h2 = false)
        by (apply ascii_eqb_neq; intros ->; congruence).
      rewrite N1, N2 in Hm. cbn [orb] in Hm.
      pose proof (IH r2 ltac:(cbn; lia) v Ev Hm) as K. unfold str_mem in K.
      rewrite K. apply orb_true_r.
  - rewrite unquote_unreserved_other in Hu by exact Ed. now apply Hkeep.
Qed.

(** [unquote_unreserved] fails only on a text with a percent sign. *)
Lemma unquote_unreserved_none (s : string) :
  unquote_unreserved s = None -> str_mem "%" s = true.
Proof.
  induction s as [s IH] using str_strong_ind. intros Hu.
  destruct s as [|d r]; [discriminate Hu|].
  unfold str_mem. cbn [str_existsb].
  destruct (ascii_eqb "%" d) eqn:Ed; [reflexivity|].
  rewrite ascii_eqb_sym in Ed.
  rewrite unquote_unreserved_other in Hu by exact Ed.
  destruct (unquote_unreserved r) eqn:Er; [discriminate Hu|].
  exact (IH r ltac:(cbn; lia) Er).
Qed.

Lemma quote_app (safe : ascii -> bool) (a b : string) :
  quote safe (a +:+ b) = quote safe a +:+ quote safe b.
Proof.
  induction a as [|c a IH]; [reflexivity|].
  cbn [String.append quote]. now rewrite IH, str_app_assoc.
Qed.

Lemma quote_keeps (safe : ascii -> bool) (c : ascii) (s : string) :
  is_unreserved c || safe c = true ->
  str_mem c s = true -> str_mem c (quote safe s) = true.
Proof.
  intros Hc. induction s as [|d s IH]; [discriminate|].
  unfold str_mem at 1. cbn [str_existsb quote]. rewrite str_mem_app.
  destruct (ascii_eqb c d) eqn:E.
  - apply ascii_eqb_eq in E. subst d. rewrite Hc. intros _.
    unfold str_mem, str_of_char. cbn [str_existsb]. now rewrite ascii_eqb_refl.
  - cbn [orb]. intros H. rewrite (IH H). apply orb_true_r.
Qed.

Lemma quote_percent_sign (safe : ascii -> bool) (s : string) :
  str_mem "%" s = true -> str_mem "%" (quote safe s) = true.
Proof.
  induction s as [|d s IH]; [discriminate|].
  unfold str_mem at 1. cbn [str_existsb quote]. rewrite str_mem_app.
  destruct (ascii_eqb "%" d) eqn:E.
  - apply ascii_eqb_eq in E. subst d. intros _.
    now destruct (is_unreserved "%" || safe "%"%char).
  - cbn [orb]. intros H. rewrite (IH H). apply orb_true_r.
Qed.

Lemma plain_without (c : ascii) (base : string) :
  plain_char c = false -> url_plain base = true -> str_mem c base = false.
Proof.
  intros Hc. unfold url_plain, str_mem.
  induction base as [|d s IH]; [reflexivity|].
  cbn [str_forallb str_existsb]. intros H. apply andb_prop in H.
  destruct H as [Hd Hs]. rewrite (IH Hs), orb_false_r.
  apply ascii_eqb_neq. intros ->. congruence.
Qed.

(** The question mark and the number sign of a URL are still there after
    [requote_uri]. *)
Lemma requote_uri_keeps (c : ascii) (s : string) :
  c = "?"%char \/ c = "#"%char ->
  str_mem c s = true -> str_mem c (requote_uri s) = true.
Proof.
  intros Hc Hm. unfold requote_uri.
  destruct (unquote_unreserved s) as [u|] eqn:Eu.
  - apply quote_keeps; [now destruct Hc as [-> | ->]|].
    apply (unquote_unreserved_keeps c s u); try assumption;
      now destruct Hc as [-> | ->].
  - apply quote_keeps; [now destruct Hc as [-> | ->] | exact Hm].
Qed.

(** When [requote_uri] gives plain text for the front of a URL, a query
    that needs no requoting is joined to it as it is. *)
Lemma requote_uri_query (s e : string) :
  url_plain (requote_uri s) = true ->
  canonical e ->
  requote_uri (s +:+ "?" +:+ e) = requote_uri s +:+ "?" +:+ e.
Proof.
  intros Hp He. unfold requote_uri in *. cbn [String.append].
  rewrite unquote_unreserved_question, (unquote_unreserved_canonical e He).
  destruct (unquote_unreserved s) as [u|] eqn:Eu.
  - rewrite quote_app. f_equal. cbn [quote]. cbn. f_equal.
    now apply quote_canonical.
  - pose proof (quote_percent_sign (fun c => str_mem c safe_without_percent) s
                  (unquote_unreserved_none s Eu)) as H.
    now rewrite (plain_without "%" _ eq_refl Hp) in H.
Qed.

(** *** [prepare_url] with and without parameters *)

Lemma starts_with_app (p q s : string) :
  starts_with (p +:+ q) s = true -> starts_with p s = true.
Proof.
  revert s. induction p as [|a p IH]; intros s; [reflexivity|].
  destruct s as [|c r]; cbn [String.append starts_with]; [discriminate|].
  intros H. apply andb_prop in H. destruct H as [-> H]. now apply IH.
Qed.

Lemma has_adapter_http (u : string) :
  has_adapter u = true -> starts_with "http" (lower u) = true.
Proof.
  unfold has_adapter. intros H. apply orb_prop in H. destruct H as [H|H].
  - exact (starts_with_app "http" "s://" _ H).
  - exact (starts_with_app "http" "://" _ H).
Qed.

(** A URL that is left unprepared does not start with http. *)
Lemma located_inl (url u : string) :
  located url = Ok (inl u) ->
  u = lstrip url /\ starts_with "http" (lower u) = false.
Proof.
  unfold located.
  destruct (str_mem ":" (lstrip url)
            && negb (starts_with "http" (lower (lstrip url)))) eqn:E.
  - intros [= <-]. apply andb_prop in E. destruct E as [_ E].
    split; [reflexivity | now apply negb_true_iff in E].
  - destruct (parse_url _) as [p|e]; [|discriminate].
    destruct (p_scheme p); [|discriminate].
    destruct (p_host p) as [[|c h]|]; try discriminate.
    repeat match goal with
           | |- context [if ?b then _ else _] => destruct b
           end; discriminate.
Qed.

Lemma urlunparse_front (scheme netloc path query fragment : string) :
  urlunparse scheme netloc path query fragment
  = (scheme +:+ "://" +:+ netloc +:+ path)
    +:+ (if str_is_empty query then "" else "?" +:+ query)
    +:+ (if str_is_empty fragment then "" else "#" +:+ fragment).
Proof. unfold urlunparse. now rewrite !str_app_assoc. Qed.

Lemma add_params_none (query : option string) : add_params query "" = default "" query.
Proof. reflexivity. Qed.


(** An endpoint that is prepared, without parameters, to a plain URL that
    requests can send: it has been taken apart, it has neither query nor
    fragment, and the plain URL is what [requote_uri] makes of scheme, host
    and path. *)
Lemma located_plain (endpoint base : string) :
  prepare_url endpoint [] = Ok base ->
  url_plain base = true ->
  has_adapter base = true ->
  exists (scheme netloc path : string) (q f : option string),
    located endpoint = Ok (inr (scheme, netloc, path, q, f))
    /\ str_is_empty (default "" q) = true
    /\ str_is_empty (default "" f) = true
    /\ requote_uri (scheme +:+ "://" +:+ netloc +:+ path) = base.
Proof.
  intros H0 Hb Ha. unfold prepare_url in H0.
  destruct (located endpoint) as [[u | [[[[scheme netloc] path] q] f]] | e] eqn:El;
    [| |discriminate H0].
  - injection H0 as ->. apply located_inl in El. destruct El as [_ El].
    rewrite (has_adapter_http _ Ha) in El. discriminate El.
  - exists scheme, netloc, path, q, f. split; [reflexivity|].
    injection H0 as H0. change (urlencode []) with "" in H0.
    rewrite add_params_none, urlunparse_front in H0.
    assert (Hq : str_is_empty (default "" q) = true).
    { destruct (str_is_empty (default "" q)) eqn:E; [reflexivity|]. exfalso.
      assert (K : str_mem "?" base = true).
      { rewrite <- H0. apply requote_uri_keeps; [now left|].
        rewrite !str_mem_app.
        replace (str_mem "?" ("?" +:+ default "" q)) with true by reflexivity.
        now rewrite orb_true_r. }
      rewrite (plain_without "?" _ eq_refl Hb) in K. discriminate K. }
    assert (Hf : str_is_empty (default "" f) = true).
    { destruct (str_is_empty (default "" f)) eqn:E; [reflexivity|]. exfalso.
      assert (K : str_mem "#" base = true).
      { rewrite <- H0. apply requote_uri_keeps; [now right|].
        rewrite !str_mem_app.
        replace (str_mem "#" ("#" +:+ default "" f)) with true by reflexivity.
        now rewrite !orb_true_r. }
      rewrite (plain_without "#" _ eq_refl Hb) in K. discriminate K. }
    rewrite Hq, Hf in H0. cbn [String.append] in H0.
    rewrite str_app_nil_r in H0. now repeat split.
Qed.

(** The URL requests builds from such parts and a query that needs no
    requoting. *)
Lemma requote_front_query (scheme netloc path query base : string) :
  requote_uri (scheme +:+ "://" +:+ netloc +:+ path) = base ->
  url_plain base = true ->
  canonical query ->
  requote_uri (urlunparse scheme netloc path query "")
  = if str_is_empty query then base else base +:+ "?" +:+ query.
Proof.
  intros H0 Hb Hc. rewrite urlunparse_front. cbn [str_is_empty].
  rewrite str_app_nil_r.
  destruct (str_is_empty query).
  - now rewrite str_app_nil_r.
  - rewrite <- H0 in Hb |- *.
    exact (requote_uri_query (scheme +:+ "://" +:+ netloc +:+ path) query Hb Hc).
Qed.

Lemma empty_default (f : option string) :
  str_is_empty (default "" f) = true -> default "" f = "".
Proof. now destruct f as [[|c r]|]. Qed.


Lemma url_query_plain (base q : string) :
  url_plain base = true -> str_mem "#" q = false ->
  url_query (base +:+ "?" +:+ q) = q.
Proof.
  intros Hb Hq. unfold url_query.
  rewrite (partition_none "#")
    by (rewrite <- str_mem_existsb, !str_mem_app, Hq,
          (plain_without "#" _ eq_refl Hb); reflexivity).
  cbn [fst String.append].
  now rewrite partition_app by now apply plain_no_question.
Qed.


End UrlFacts.
(** ** The fetcher *)

Lemma fetch_run (server : string -> Z * string) (endpoint : string)
    (params : list (string * string)) (k : kernel) :
  fetch server endpoint params k =
  match requests_get server endpoint params with
  | Raise e => (Raise e, k)
  | Ok r =>
      match Json.loads (text r) with
      | Some v => (Ok tt, set_bp_data v (set_bp_request r k))
      | None => (Raise JSONDecodeError, set_bp_request r k)
      end
  end.
Proof.
  unfold fetch, bind, lookup_name, lift, Response_json.
  destruct (requests_get server endpoint params) as [r|e]; [|reflexivity].
  cbn [set_bp_request bp_request]. now destruct (Json.loads _).
Qed.

(** Cell 3 as a whole: after the Fetcher, the slice of the second [pprint]
    decides the outcome. *)
Lemma run_cell3_run (server : string -> Z * string) (endpoint : string)
    (params : list (string * string)) (k : kernel) :
  run_cell3 server endpoint params k =
  match requests_get server endpoint params with
  | Raise e => (Raise e, k)
  | Ok r =>
      match Json.loads (text r) with
      | Some v =>
          (match getslice 5 v with Ok _ => Ok tt | Raise e => Raise e end,
           set_bp_data v (set_bp_request r k))
      | None => (Raise JSONDecodeError, set_bp_request r k)
      end
  end.
Proof.
  unfold run_cell3, fetch_and_show. rewrite fetch_run.
  destruct (requests_get server endpoint params) as [r|e]; [|reflexivity].
  destruct (Json.loads _) as [v|]; [|reflexivity].
  cbn [bp_request bp_data set_bp_data set_bp_request].
  now destruct (getslice 5 v).
Qed.

Lemma run_all_run (py_str : value -> string) (server : string -> Z * string)
    (endpoint : string) (params : list (string * string))
    (path : string) (header fields : list string) (k : kernel) :
  run_all py_str server endpoint params path header fields k =
  match run_cell3 server endpoint params k with
  | (Ok _, k') => csv_export py_str path header fields k'
  | (Raise e, k') => (Raise e, k')
  end.
Proof. reflexivity. Qed.



(** ** The outputs the notebook records *)

(** Cell 1 prints [test_url]: the endpoint and the hand-written query, put
    together as they are. *)
Example test_url_printed :
  test_url
  = "https://data.seattle.gov/resource/76t5-zqzr.json?$where=(PermitNum='6531736-PH')".
Proof. reflexivity. Qed.

(** The URL cell 1 requests is [test_url] as it is: [parse_url] and
    [requote_uri] keep the dollar sign, the parentheses and the apostrophes
    of the hand-written query. *)
Lemma cell1_url (server : string -> Z * string) :
  exists r : Response,
    cell1 server = Ok (r, Response_json r) /\ url r = test_url.
Proof.
  assert (E : Url.prepare_url test_url [] = Ok test_url)
    by (vm_compute; reflexivity).
  assert (A : Url.has_adapter test_url = true) by (vm_compute; reflexivity).
  unfold cell1, requests_get. rewrite E, A.
  destruct (server test_url) as [status body]. eexists. split; reflexivity.
Qed.

(** Cell 3 prints [bp_request.url]. *)
Example bp_request_url_printed :
  Url.prepare_url bp_endpoint bp_api_params
  = Ok bp_url.
Proof. vm_compute. reflexivity. Qed.

(** Cell 4 on the first Record cell 3 prints. *)
Example cell4_first_permit :
  file_content
    (snd (cell4 str_unused
            (kernel_with
               (VList [VDict [("CompletedDate", VStr "2021-03-16");
                              ("Description",
                               VStr "Establish use as and construct new townhouse, per plan.");
                              ("PermitClass", VStr "Multifamily");
                              ("PermitNum", VStr "6645390-CN")]]))))
    "1000_most_recent_residential_permits.csv"
  = Some ("permit number,description,building type,completed date" +:+ CRLF
          +:+ "6645390-CN," +:+ str_of_char DQUOTE
          +:+ "Establish use as and construct new townhouse, per plan."
          +:+ str_of_char DQUOTE +:+ ",Multifamily,2021-03-16" +:+ CRLF).
Proof. vm_compute. reflexivity. Qed.

(** ** The fuel of the JSON scanner

    A scan that succeeds with some fuel succeeds with the fuel [loads]
    gives it, so [loads] answers [None] only for a text that no amount of
    fuel decodes. *)

Section JsonFacts.

Import Json.

Local Open Scope nat_scope.

Ltac split_match H :=
  repeat match type of H with
         | context [match ?x with _ => _ end] =>
             destruct x eqn:?; try discriminate H
         end.

Lemma skip_ws_length (s : string) :
  String.length (skip_ws s) <= String.length s.
Proof.
  induction s as [|c s IH]; simpl; [lia|].
  destruct (is_ws c); simpl; lia.
Qed.

Lemma scanstring_length (n : nat) :
  forall (s : string) (p : option Z) (x rest : string),
    String.length s <= n ->
    scanstring p s = Some (x, rest) ->
    String.length rest < String.length s.
Proof.
  induction n as [|n IH]; intros s p x rest Hn H.
  - destruct s; [discriminate H | simpl in Hn; lia].
  - destruct s as [|c r]; [discriminate H|].
    cbn [scanstring] in H. unfold emit in H. simpl in Hn.
    split_match H;
      try (injection H as <- <-); simpl in *;
      repeat match goal with
             | E : scanstring _ ?t = Some (_, _) |- _ =>
                 apply IH in E; [|simpl in *; lia]
             end;
      simpl in *; lia.
Qed.

Lemma take_digits_length (s ds rest : string) :
  take_digits s = (ds, rest) ->
  String.length s = String.length ds + String.length rest.
Proof.
  revert ds rest. induction s as [|c s IH]; intros ds rest H; simpl in H.
  - now injection H as <- <-.
  - destruct (is_digit c).
    + destruct (take_digits s) as [d r] eqn:E. injection H as <- <-.
      simpl. now rewrite (IH d r eq_refl).
    + now injection H as <- <-.
Qed.

Lemma match_int_length (s i rest : string) :
  match_int s = Some (i, rest) -> String.length rest < String.length s.
Proof.
  unfold match_int. intros H.
  destruct s as [|c r]; [discriminate H|].
  destruct (ascii_eqb c "-");
    split_match H; try (injection H as <- <-);
    repeat match goal with
           | E : take_digits _ = (_, _) |- _ => apply take_digits_length in E
           end;
    simpl in *; lia.
Qed.

Lemma match_frac_length (s f rest : string) :
  match_frac s = (f, rest) -> String.length rest <= String.length s.
Proof.
  unfold match_frac. intros H.
  split_match H; try (injection H as <- <-);
    repeat match goal with
           | E : take_digits _ = (_, _) |- _ => apply take_digits_length in E
           end;
    simpl in *; lia.
Qed.

Lemma match_exp_length (s e rest : string) :
  match_exp s = (e, rest) -> String.length rest <= String.length s.
Proof.
  unfold match_exp. intros H.
  destruct s as [|c r]; [now injection H as <- <-|].
  destruct (ascii_eqb c "e" || ascii_eqb c "E"); [|now injection H as <- <-].
  destruct r as [|d r'].
  - split_match H; injection H as <- <-;
      repeat match goal with
             | E : take_digits _ = (_, _) |- _ => apply take_digits_length in E
             end;
      simpl in *; lia.
  - destruct (ascii_eqb d "-" || ascii_eqb d "+");
      split_match H; injection H as <- <-;
      repeat match goal with
             | E : take_digits _ = (_, _) |- _ => apply take_digits_length in E
             end;
      simpl in *; lia.
Qed.

Lemma match_number_length (s : string) (v : value) (rest : string) :
  match_number s = Some (v, rest) -> String.length rest < String.length s.
Proof.
  unfold match_number. intros H.
  split_match H; try (injection H as <- <-);
    repeat match goal with
           | E : match_int _ = Some _ |- _ => apply match_int_length in E
           | E : match_frac _ = (_, _) |- _ => apply match_frac_length in E
           | E : match_exp _ = (_, _) |- _ => apply match_exp_length in E
           end;
    lia.
Qed.

Lemma strip_prefix_length (w s r : string) :
  strip_prefix w s = Some r ->
  String.length s = String.length w + String.length r.
Proof.
  revert s. induction w as [|a w IH]; intros s H; simpl in H.
  - now injection H as <-.
  - destruct s as [|c s]; [discriminate|].
    destruct (ascii_eqb a c); [|discriminate].
    simpl. now rewrite (IH s H).
Qed.

Lemma match_constant_length (s : string) (v : value) (rest : string) :
  match_constant s = Some (v, rest) -> String.length rest < String.length s.
Proof.
  unfold match_constant. intros H.
  split_match H; try (injection H as <- <-);
    repeat match goal with
           | E : strip_prefix _ _ = Some _ |- _ => apply strip_prefix_length in E
           end;
    simpl in *; lia.
Qed.

Lemma parse_items_S (f : nat) (s : string) (acc : list value) :
  parse_items (S f) s acc =
  match scan_once f s with
  | Some (v, rest) =>
      match skip_ws rest with
      | String c r =>
          if ascii_eqb c "]" then Some (VList (acc ++ [v]), r)
          else if ascii_eqb c "," then parse_items f (skip_ws r) (acc ++ [v])
          else None
      | EmptyString => None
      end
  | None => None
  end.
Proof. reflexivity. Qed.

Lemma parse_members_S (f : nat) (s : string) (acc : list (string * value)) :
  parse_members (S f) s acc =
  match s with
  | String q r =>
      if ascii_eqb q DQUOTE then
        match scanstring None r with
        | Some (key, r1) =>
            match skip_ws r1 with
            | String colon r2 =>
                if ascii_eqb colon ":" then
                  match scan_once f (skip_ws r2) with
                  | Some (v, r3) =>
                      match skip_ws r3 with
                      | String c r4 =>
                          if ascii_eqb c "}" then Some (VDict (dict_set acc key v), r4)
                          else if ascii_eqb c ","
                          then parse_members f (skip_ws r4) (dict_set acc key v)
                          else None
                      | EmptyString => None
                      end
                  | None => None
                  end
                else None
            | EmptyString => None
            end
        | None => None
        end
      else None
  | EmptyString => None
  end.
Proof. reflexivity. Qed.

Lemma scan_once_S (f : nat) (c : ascii) (r : string) :
  scan_once (S f) (String c r) =
  if ascii_eqb c DQUOTE then
    match scanstring None r with
    | Some (str, rest) => Some (mk_str str, rest)
    | None => None
    end
  else if ascii_eqb c "{" then
    match skip_ws r with
    | String c1 r1 =>
        if ascii_eqb c1 "}" then Some (VDict [], r1)
        else parse_members f (skip_ws r) []
    | EmptyString => None
    end
  else if ascii_eqb c "[" then
    match skip_ws r with
    | String c1 r1 =>
        if ascii_eqb c1 "]" then Some (VList [], r1)
        else parse_items f (skip_ws r) []
    | EmptyString => None
    end
  else
    match match_constant (String c r) with
    | Some res => Some res
    | None => match_number (String c r)
    end.
Proof. reflexivity. Qed.

Lemma scan_fuel (f : nat) :
  (forall s v rest,
      scan_once f s = Some (v, rest) -> enough scan_once s v rest)
  /\ (forall s acc v rest,
        parse_items f s acc = Some (v, rest) ->
        enough (fun g t => parse_items g t acc) s v rest)
  /\ (forall s acc v rest,
        parse_members f s acc = Some (v, rest) ->
        enough (fun g t => parse_members g t acc) s v rest).
Proof.
  induction f as [|f (IHs & IHi & IHm)].
  { repeat split; intros; discriminate. }
  split; [|split].
  - (* scan_once *)
    intros s v rest H. destruct s as [|c r]; [discriminate H|].
    rewrite scan_once_S in H.
    destruct (ascii_eqb c DQUOTE) eqn:Eq.
    { destruct (scanstring None r) as [[str r1]|] eqn:E; [|discriminate H].
      injection H as <- <-.
      apply (scanstring_length _ _ _ _ _ (le_n _)) in E as Hl.
      split; [simpl; lia|]. intros [|g] Hg; [simpl in Hg; lia|].
      now rewrite scan_once_S, Eq, E. }
    destruct (ascii_eqb c "{") eqn:Eo.
    { pose proof (skip_ws_length r) as Hw.
      destruct (skip_ws r) as [|c1 r1] eqn:Er; [discriminate H|].
      destruct (ascii_eqb c1 "}") eqn:Ec.
      - injection H as <- <-. simpl in Hw.
        split; [simpl; lia|]. intros [|g] Hg; [simpl in Hg; lia|].
        now rewrite scan_once_S, Eq, Eo, Er, Ec.
      - destruct (IHm _ _ _ _ H) as [Hl Hg']. simpl in Hw, Hl.
        split; [simpl; lia|]. intros [|g] Hg; [simpl in Hg; lia|].
        rewrite scan_once_S, Eq, Eo, Er, Ec. apply Hg'. simpl in *. lia. }
    destruct (ascii_eqb c "[") eqn:Ea.
    { pose proof (skip_ws_length r) as Hw.
      destruct (skip_ws r) as [|c1 r1] eqn:Er; [discriminate H|].
      destruct (ascii_eqb c1 "]") eqn:Ec.
      - injection H as <- <-. simpl in Hw.
        split; [simpl; lia|]. intros [|g] Hg; [simpl in Hg; lia|].
        now rewrite scan_once_S, Eq, Eo, Ea, Er, Ec.
      - destruct (IHi _ _ _ _ H) as [Hl Hg']. simpl in Hw, Hl.
        split; [simpl; lia|]. intros [|g] Hg; [simpl in Hg; lia|].
        rewrite scan_once_S, Eq, Eo, Ea, Er, Ec. apply Hg'. simpl in *. lia. }
    assert (Hl : String.length rest < String.length (String c r)).
    { destruct (match_constant (String c r)) as [[v' r']|] eqn:E.
      - injection H as <- <-. now apply match_constant_length in E.
      - now apply match_number_length in H. }
    split; [exact Hl|]. intros [|g] Hg; [lia|].
    now rewrite scan_once_S, Eq, Eo, Ea.
  - (* parse_items *)
    intros s acc v rest H. rewrite parse_items_S in H.
    destruct (scan_once f s) as [[x r1]|] eqn:E1; [|discriminate H].
    destruct (IHs _ _ _ E1) as [Hl1 Hg1].
    pose proof (skip_ws_length r1) as Hw.
    destruct (skip_ws r1) as [|c r] eqn:E2; [discriminate H|]. simpl in Hw.
    destruct (ascii_eqb c "]") eqn:E3.
    + injection H as <- <-.
      split; [lia|]. intros [|g] Hg; [lia|].
      rewrite parse_items_S, Hg1 by lia. now rewrite E2, E3.
    + destruct (ascii_eqb c ",") eqn:E4; [|discriminate H].
      destruct (IHi _ _ _ _ H) as [Hl2 Hg2].
      pose proof (skip_ws_length r) as Hw2.
      split; [lia|]. intros [|g] Hg; [lia|].
      rewrite parse_items_S, Hg1 by lia. rewrite E2, E3, E4.
      apply Hg2. lia.
  - (* parse_members *)
    intros s acc v rest H. rewrite parse_members_S in H.
    destruct s as [|q r]; [discriminate H|].
    destruct (ascii_eqb q DQUOTE) eqn:Eq; [|discriminate H].
    destruct (scanstring None r) as [[key r1]|] eqn:E0; [|discriminate H].
    apply (scanstring_length _ _ _ _ _ (le_n _)) in E0 as Hl0.
    pose proof (skip_ws_length r1) as Hw1.
    destruct (skip_ws r1) as [|colon r2] eqn:E1; [discriminate H|]. simpl in Hw1.
    destruct (ascii_eqb colon ":") eqn:Ec; [|discriminate H].
    pose proof (skip_ws_length r2) as Hw2.
    destruct (scan_once f (skip_ws r2)) as [[x r3]|] eqn:E2; [|discriminate H].
    destruct (IHs _ _ _ E2) as [Hl2 Hg2].
    pose proof (skip_ws_length r3) as Hw3.
    destruct (skip_ws r3) as [|c r4] eqn:E3; [discriminate H|]. simpl in Hw3.
    destruct (ascii_eqb c "}") eqn:E4.
    + injection H as <- <-.
      split; [simpl; lia|]. intros [|g] Hg; [simpl in Hg; lia|].
      rewrite parse_members_S, Eq, E0, E1, Ec, Hg2 by (simpl in Hg; lia).
      now rewrite E3, E4.
    + destruct (ascii_eqb c ",") eqn:E5; [|discriminate H].
      destruct (IHm _ _ _ _ H) as [Hl4 Hg4].
      pose proof (skip_ws_length r4) as Hw4.
      split; [simpl; lia|]. intros [|g] Hg; [simpl in Hg; lia|].
      rewrite parse_members_S, Eq, E0, E1, Ec, Hg2 by (simpl in Hg; lia).
      rewrite E3, E4, E5. apply Hg4. simpl in Hg. lia.
Qed.

(** [loads] decodes every text that the scanner decodes with some fuel. *)
Lemma loads_fuel (s : string) (f : nat) (v : value) (rest : string) :
  scan_once f (skip_ws s) = Some (v, rest) ->
  str_is_empty (skip_ws rest) = true ->
  loads s = Some v.
Proof.
  intros H Hrest. unfold loads.
  destruct (proj1 (scan_fuel f) _ _ _ H) as [_ Hg].
  pose proof (skip_ws_length s) as Hw.
  rewrite Hg by lia. now rewrite Hrest.
Qed.

End JsonFacts.

(** ** More on the exporter's loop *)

Section ExporterMore.

Variable py_str : value -> string.
Variables (path : string) (header fields : list string).

(** The outcome of the export read off a run of its body. *)
Lemma csv_export_outcome (k k2 : kernel) (r : result unit) (w : string) :
  export_body py_str header fields (opened path k) = (r, k2) ->
  csv_outfile k2 = Some (open_file path w) ->
  fst (csv_export py_str path header fields k) = r
  /\ file_content (snd (csv_export py_str path header fields k)) path = Some w
  /\ csv_outfile (snd (csv_export py_str path header fields k))
     = Some (closed_file path).
Proof.
  intros Hb Hw.
  destruct (csv_export_frame py_str path header fields k)
    as (w0 & H1 & H2 & H3 & H4 & _).
  rewrite Hb in H1, H2. cbn [fst snd] in H1, H2. rewrite Hw in H1.
  injection H1 as <-. unfold file_content. rewrite H4, lookup_insert_eq.
  now repeat split.
Qed.

Lemma for_each_app_ok {A} (l1 l2 : list A) (body : A -> M unit) (k k1 : kernel) :
  for_each l1 body k = (Ok tt, k1) ->
  for_each (l1 ++ l2) body k = for_each l2 body k1.
Proof.
  revert k. induction l1 as [|x l1 IH]; intros k H.
  - now injection H as <-.
  - cbn [app]. rewrite for_each_cons in H |- *.
    destruct (body x k) as [[[]|e] k']; [now apply IH | discriminate H].
Qed.

(** The loop over Records that are all writable. *)
Lemma loop_complete (recs : list record) (k : kernel) (w : string) :
  csv_outfile k = Some (open_file path w) ->
  forallb (writable fields) recs = true ->
  exists k1,
    for_each (map VDict recs) (loop_body py_str fields) k = (Ok tt, k1)
    /\ csv_outfile k1
       = Some (open_file path (w +:+ concat_str (map (row_of py_str fields) recs))).
Proof.
  intros Hk Hall.
  destruct (loop_records py_str path fields recs k w Hk) as [Hr Hw].
  destruct (written_prefix_all fields recs Hall) as [Hp Ho].
  rewrite Hp in Hw. rewrite Ho in Hr.
  destruct (for_each (map VDict recs) (loop_body py_str fields) k) as [r k1].
  cbn [fst snd] in Hr, Hw. subst r. now exists k1.
Qed.

(** The loop's outcome and the text it leaves in the buffer depend on the
    items and on the buffer only. *)
Lemma loop_same (items : list value) (k1 k2 : kernel) (w : string) :
  csv_outfile k1 = Some (open_file path w) ->
  csv_outfile k2 = Some (open_file path w) ->
  fst (for_each items (loop_body py_str fields) k1)
  = fst (for_each items (loop_body py_str fields) k2)
  /\ csv_outfile (snd (for_each items (loop_body py_str fields) k1))
     = csv_outfile (snd (for_each items (loop_body py_str fields) k2)).
Proof.
  revert k1 k2 w. induction items as [|b rest IH]; intros k1 k2 w H1 H2.
  - cbn. now rewrite H1, H2.
  - rewrite !for_each_cons.
    destruct (eval_tuple (map (getitem b) fields)) as [row|e] eqn:Hrow.
    + destruct (forallb can_encode row) eqn:Henc.
      * rewrite (loop_body_ok py_str path fields b row k1 w H1 Hrow Henc).
        rewrite (loop_body_ok py_str path fields b row k2 w H2 Hrow Henc).
        now apply (IH _ _ (w +:+ format_row (map (field_text py_str) row))).
      * rewrite (loop_body_lone py_str path fields b row k1 w H1 Hrow Henc).
        rewrite (loop_body_lone py_str path fields b row k2 w H2 Hrow Henc).
        cbn. now rewrite H1, H2.
    + rewrite !(loop_body_raise py_str fields b e _ Hrow).
      cbn. now rewrite H1, H2.
Qed.

(** So do the outcome of the export and the file it leaves: they depend on
    [bp_data] only. *)
Lemma csv_export_same (k1 k2 : kernel) :
  bp_data k1 = bp_data k2 ->
  fst (csv_export py_str path header fields k1)
  = fst (csv_export py_str path header fields k2)
  /\ file_content (snd (csv_export py_str path header fields k1)) path
     = file_content (snd (csv_export py_str path header fields k2)) path.
Proof.
  intros Hd.
  destruct (csv_export_frame py_str path header fields k1)
    as (w1 & A1 & A2 & _ & A4 & _).
  destruct (csv_export_frame py_str path header fields k2)
    as (w2 & B1 & B2 & _ & B4 & _).
  unfold file_content. rewrite A2, B2, A4, B4, !lookup_insert_eq.
  rewrite (export_body_run py_str path header fields (opened path k1) eq_refl)
    in A1 |- *.
  rewrite (export_body_run py_str path header fields (opened path k2) eq_refl)
    in B1 |- *.
  change (bp_data (opened path k1)) with (bp_data k1) in A1 |- *.
  change (bp_data (opened path k2)) with (bp_data k2) in B1 |- *.
  rewrite <- Hd in B1 |- *.
  destruct (bp_data k1) as [data|].
  - destruct (iter data) as [items|e].
    + destruct (loop_same items
                  (after_header path header (opened path k1))
                  (after_header path header (opened path k2))
                  (format_row header) eq_refl eq_refl) as [Hr Hw].
      rewrite Hw, B1 in A1. injection A1 as ->. now rewrite Hr.
    + cbn in A1, B1. injection A1 as <-. injection B1 as <-. now split.
  - cbn in A1, B1. injection A1 as <-. injection B1 as <-. now split.
Qed.

End ExporterMore.

(** ** More on the URL *)

Section UrlMore.

Import Url Reference.

Ltac each_ascii c := destruct c as [[|] [|] [|] [|] [|] [|] [|] [|]].


(** *** A URL that already has a query *)

(** An http or https URL of plain characters followed by a query: requests
    takes it apart as it does the URL alone, with the query normalised. *)
Lemma located_query (s rest q : string) :
  s = "http" \/ s = "https" ->
  url_plain (s +:+ "://" +:+ rest) = true ->
  str_mem "#" q = false ->
  located ((s +:+ "://" +:+ rest) +:+ "?" +:+ q)
  = match located (s +:+ "://" +:+ rest) with
    | Ok (inr (sch, netloc, path, _, f)) =>
        Ok (inr (sch, netloc, path, Some (norm_query q), f))
    | other => other
    end.
Proof.
  intros Hs Hb Hq.
  assert (P1 : partition "#" ((s +:+ "://" +:+ rest) +:+ "?" +:+ q)
               = ((s +:+ "://" +:+ rest) +:+ "?" +:+ q, None)).
  { apply partition_none. rewrite <- str_mem_existsb.
    rewrite (str_mem_app "#" (s +:+ "://" +:+ rest) ("?" +:+ q)).
    rewrite (plain_without "#" _ eq_refl Hb). exact Hq. }
  assert (P2 : partition "?" ((s +:+ "://" +:+ rest) +:+ "?" +:+ q)
               = (s +:+ "://" +:+ rest, Some q)).
  { cbn [String.append]. apply partition_app. now apply plain_no_question. }
  assert (P3 : partition "#" (s +:+ "://" +:+ rest) = (s +:+ "://" +:+ rest, None)).
  { apply partition_none. rewrite <- str_mem_existsb.
    apply (plain_without "#" _ eq_refl Hb). }
  assert (P4 : partition "?" (s +:+ "://" +:+ rest) = (s +:+ "://" +:+ rest, None)).
  { apply partition_none. now apply plain_no_question. }
  assert (E : forall x,
             lstrip ((s +:+ "://" +:+ rest) +:+ x) = (s +:+ "://" +:+ rest) +:+ x
             /\ str_mem ":" ((s +:+ "://" +:+ rest) +:+ x)
                && negb (starts_with "http" (lower ((s +:+ "://" +:+ rest) +:+ x)))
                = false
             /\ str_is_empty ((s +:+ "://" +:+ rest) +:+ x) = false
             /\ scheme_re ((s +:+ "://" +:+ rest) +:+ x) = true).
  { intros x. destruct Hs as [-> | ->]; now repeat split. }
  assert (E5 : split_scheme (s +:+ "://" +:+ rest) = (Some s, "//" +:+ rest)
               /\ is_http (lower s) = true /\ lower s = s).
  { destruct Hs as [-> | ->]; now repeat split. }
  destruct E5 as (E5 & E6 & E7).
  destruct (E ("?" +:+ q)) as (A1 & A2 & A3 & A4).
  destruct (E "") as (B1 & B2 & B3 & B4). rewrite !str_app_nil_r in B1, B2, B3, B4.
  unfold located. rewrite A1, A2, B1, B2. unfold parse_url.
  rewrite A3, A4, B3, B4. unfold uri_re. rewrite P1, P2, P3, P4, E5.
  destruct (split_authority ("//" +:+ rest)) as [authority path].
  rewrite E6. cbn [negb andb].
  destruct (parse_authority true authority) as [[[userinfo h] port]|e];
    [|reflexivity].
  cbn [p_scheme p_host p_auth p_port p_path p_query p_fragment fmap option_fmap
       option_map].
  destruct h as [[|c h]|]; try reflexivity.
  destruct (negb (is_ascii (String c h))); [reflexivity|].
  destruct (starts_with "*" (String c h) || starts_with "." (String c h));
    reflexivity.
Qed.

Lemma starts_with_split (p s : string) :
  starts_with p s = true -> exists r, s = p +:+ r.
Proof.
  revert s. induction p as [|a p IH]; intros s H.
  - now exists s.
  - destruct s as [|c r]; [discriminate H|]. cbn [starts_with] in H.
    apply andb_prop in H. destruct H as [Hc H].
    apply ascii_eqb_eq in Hc. subst c.
    destruct (IH r H) as (t & ->). now exists t.
Qed.

Lemma is_http_url_split (u : string) :
  is_http_url u = true ->
  exists s rest, (s = "http" \/ s = "https") /\ u = s +:+ "://" +:+ rest.
Proof.
  unfold is_http_url. intros H. apply orb_prop in H. destruct H as [H|H];
    apply starts_with_split in H; destruct H as (r & ->).
  - exists "https", r. split; [now right | reflexivity].
  - exists "http", r. split; [now left | reflexivity].
Qed.

Lemma is_http_url_adapter (u : string) :
  is_http_url u = true -> has_adapter u = true.
Proof.
  intros H. destruct (is_http_url_split u H) as (s & rest & [-> | ->] & ->);
    reflexivity.
Qed.

(** *** Queries that [parse_url] leaves as they are *)

Lemma encoded_canonical (s : string) : encoded s -> canonical s.
Proof.
  induction 1 as [|c s H1 H2 He IH|c s H1 He IH].
  - constructor.
  - apply canonical_char; [exact H1| |exact IH].
    revert H1 H2. each_ascii c; intros H1 H2;
      first [reflexivity | discriminate H1 | discriminate H2].
  - now apply canonical_percent.
Qed.


Lemma upper_escapes_other (c : ascii) (s : string) :
  ascii_eqb c "%" = false ->
  upper_escapes (String c s)
  = (String c (fst (upper_escapes s)), snd (upper_escapes s)).
Proof.
  intros H. cbn [upper_escapes]. rewrite H. now destruct (upper_escapes s).
Qed.










(** *** A query without percent sign *)

Lemma upper_escapes_plain (s : string) :
  str_mem "%" s = false -> upper_escapes s = (s, O) /\ count_char "%" s = O.
Proof.
  unfold str_mem. induction s as [|c s IH]; [now split|].
  cbn [str_existsb]. intros H. apply orb_false_elim in H. destruct H as [Hc Hs].
  rewrite ascii_eqb_sym in Hc. destruct (IH Hs) as [E1 E2].
  rewrite (upper_escapes_other c s Hc), E1. cbn [fst snd count_char].
  now rewrite Hc, E2.
Qed.

Lemma norm_query_plain (s : string) :
  str_mem "%" s = false -> norm_query s = quote query_keep s.
Proof.
  intros H. unfold norm_query. destruct s as [|c r]; [reflexivity|].
  cbn [str_is_empty negb]. unfold encode_invalid_chars.
  destruct (upper_escapes_plain _ H) as [-> ->]. reflexivity.
Qed.

Lemma quote_keep_cons (c : ascii) (s : string) :
  ascii_eqb c "%" = false ->
  quote query_keep (String c s) = query_enc c +:+ quote query_keep s.
Proof.
  intros H. cbn [quote]. unfold query_keep, query_enc. now rewrite H.
Qed.

Lemma hand_value_no_percent (s : string) :
  str_forallb hand_value_char s = true -> str_mem "%" s = false.
Proof.
  unfold str_mem. induction s as [|c s IH]; [reflexivity|].
  cbn [str_forallb str_existsb]. intros H. apply andb_prop in H.
  destruct H as [Hc Hs]. rewrite (IH Hs), orb_false_r.
  revert Hc. each_ascii c; intros Hc; first [reflexivity | discriminate Hc].
Qed.

Lemma hand_value_no_hash (s : string) :
  str_forallb hand_value_char s = true -> str_mem "#" s = false.
Proof.
  unfold str_mem. induction s as [|c s IH]; [reflexivity|].
  cbn [str_forallb str_existsb]. intros H. apply andb_prop in H.
  destruct H as [Hc Hs]. rewrite (IH Hs), orb_false_r.
  revert Hc. each_ascii c; intros Hc; first [reflexivity | discriminate Hc].
Qed.

Lemma hand_name_value (s : string) :
  str_forallb hand_name_char s = true -> str_forallb hand_value_char s = true.
Proof.
  induction s as [|c s IH]; [reflexivity|].
  cbn [str_forallb]. intros H. apply andb_prop in H. destruct H as [Hc Hs].
  unfold hand_name_char in Hc. apply andb_prop in Hc. destruct Hc as [-> _].
  now rewrite (IH Hs).
Qed.

Lemma query_enc_canonical (c : ascii) :
  ascii_eqb c "%" = false -> canonical (query_enc c).
Proof.
  intros H. unfold query_enc.
  destruct (is_unreserved c || query_char c) eqn:E.
  - apply canonical_char; [exact H| |constructor].
    revert H E. each_ascii c; intros H E;
      first [reflexivity | discriminate H | discriminate E].
  - apply orb_false_elim in E. destruct E as [E _].
    apply (canonical_percent c "" E canonical_nil).
Qed.

Lemma hand_char_facts (c : ascii) :
  hand_value_char c = true ->
  ascii_eqb c "%" = false
  /\ str_existsb (fun x => ascii_eqb x "&") (query_enc c) = false
  /\ str_existsb (fun x => ascii_eqb x "#") (query_enc c) = false
  /\ canonical (query_enc c)
  /\ (hand_name_char c = true ->
      str_existsb (fun x => ascii_eqb x "=") (query_enc c) = false).
Proof.
  intros H.
  assert (E0 : ascii_eqb c "%" = false).
  { revert H. each_ascii c; intros H; first [reflexivity | discriminate H]. }
  split; [exact E0|].
  split; [revert H; each_ascii c; intros H; first [reflexivity | discriminate H]|].
  split; [revert H; each_ascii c; intros H; first [reflexivity | discriminate H]|].
  split; [now apply query_enc_canonical|].
  clear E0. revert H. each_ascii c; intros H H2;
    first [reflexivity | discriminate H | discriminate H2].
Qed.

(** What comes out of a hand-written text: no ampersand, no number sign,
    no equals sign out of a name, and nothing [requote_uri] would change. *)
Lemma hand_quoted (s : string) :
  str_forallb hand_value_char s = true ->
  str_existsb (fun x => ascii_eqb x "&") (quote query_keep s) = false
  /\ str_existsb (fun x => ascii_eqb x "#") (quote query_keep s) = false
  /\ canonical (quote query_keep s)
  /\ (str_forallb hand_name_char s = true ->
      str_existsb (fun x => ascii_eqb x "=") (quote query_keep s) = false).
Proof.
  induction s as [|c s IH]; [now repeat split; constructor|].
  cbn [str_forallb]. intros H. apply andb_prop in H. destruct H as [Hc Hs].
  destruct (hand_char_facts c Hc) as (E0 & E1 & E2 & E3 & E4).
  destruct (IH Hs) as (I1 & I2 & I3 & I4).
  rewrite (quote_keep_cons c s E0), !str_existsb_app, E1, E2, I1, I2.
  repeat split; [now apply canonical_app|].
  intros Hn. apply andb_prop in Hn. destruct Hn as [Hnc Hns].
  now rewrite (E4 Hnc), (I4 Hns).
Qed.

Lemma unquote_query_enc (c : ascii) (t : string) :
  hand_value_char c = true ->
  unquote (replace_char "+" " " (query_enc c) +:+ t) = String c (unquote t).
Proof.
  each_ascii c; intros H;
    first [ discriminate H | reflexivity | apply unquote_other; reflexivity ].
Qed.

Lemma unquote_plus_hand (s : string) :
  str_forallb hand_value_char s = true ->
  unquote_plus (quote query_keep s) = s.
Proof.
  unfold unquote_plus. induction s as [|c s IH]; [reflexivity|].
  cbn [str_forallb]. intros H. apply andb_prop in H. destruct H as [Hc Hs].
  destruct (hand_char_facts c Hc) as (E0 & _).
  rewrite (quote_keep_cons c s E0), replace_char_app, (unquote_query_enc c _ Hc).
  now rewrite (IH Hs).
Qed.

(** *** The URL requested for a URL with a query *)

(** A URL requests leaves as it is, followed by a query that [parse_url]
    normalises to text that needs no requoting: the query is joined as
    normalised, and the parameters after it. *)
Lemma prepare_url_query (base q : string) (params : list (string * string)) :
  prepare_url base [] = Ok base ->
  url_plain base = true ->
  is_http_url base = true ->
  str_mem "#" q = false ->
  str_is_empty q = false ->
  canonical (norm_query q) ->
  str_is_empty (norm_query q) = false ->
  prepare_url (base +:+ "?" +:+ q) params
  = Ok (base +:+ "?" +:+ norm_query q
        +:+ (if bool_decide (params = []) then ""
             else "&" +:+ urlencode params)).
Proof.
  intros H0 Hb Hh Hq Hne Hc Hnn.
  destruct (located_plain base base H0 Hb (is_http_url_adapter base Hh))
    as (scheme & netloc & path & q0 & f & El & _ & Hf & Hr).
  destruct (is_http_url_split base Hh) as (s & rest & Hs & ->).
  unfold prepare_url. rewrite (located_query s rest q Hs Hb Hq), El.
  rewrite (empty_default f Hf). f_equal.
  assert (Ha : add_params (Some (norm_query q)) (urlencode params)
               = norm_query q +:+ (if bool_decide (params = []) then ""
                                   else "&" +:+ urlencode params)).
  { unfold add_params. rewrite urlencode_empty.
    change (default "" (Some (norm_query q))) with (norm_query q).
    destruct (bool_decide (params = [])); [now rewrite str_app_nil_r|].
    now rewrite Hnn. }
  rewrite Ha.
  rewrite (requote_front_query scheme netloc path _ _ Hr Hb).
  - rewrite str_is_empty_app, Hnn. reflexivity.
  - apply canonical_app; [exact Hc|].
    destruct (bool_decide (params = [])); [constructor|].
    apply canonical_char; [reflexivity | reflexivity | apply canonical_urlencode].
Qed.

End UrlMore.



(** ** More on the JSON decoder *)

Section JsonMore.

Import Json.

Lemma dict_set_keys (d : list (string * value)) (key : string) (v : value) :
  NoDup (map fst d) -> NoDup (map fst (dict_set d key v)).
Proof.
  assert (Hin : forall d x, In x (map fst (dict_set d key v)) ->
                            x = key \/ In x (map fst d)).
  { clear d. induction d as [|[k0 w] d IH]; intros x Hx.
    - cbn in Hx. destruct Hx as [<- | []]. now left.
    - cbn [dict_set] in Hx. destruct (bool_decide (k0 = key)) eqn:E.
      + right. exact Hx.
      + cbn [map fst In] in Hx |- *. destruct Hx as [<- | Hx]; [now right; left|].
        destruct (IH x Hx) as [-> | H]; [now left | now right; right]. }
  induction d as [|[k0 w] d IH]; intros Hnd.
  - cbn. apply NoDup_singleton.
  - cbn [dict_set]. destruct (bool_decide (k0 = key)) eqn:E; [exact Hnd|].
    apply bool_decide_eq_false in E.
    cbn [map fst] in Hnd |- *. apply NoDup_cons in Hnd. destruct Hnd as [Hk Hd].
    apply NoDup_cons. split; [|now apply IH].
    intros Hx. apply list_elem_of_In in Hx. destruct (Hin d k0 Hx) as [-> | H].
    + now apply E.
    + apply Hk. now apply list_elem_of_In.
Qed.

Lemma dict_set_forall (P : string * value -> Prop) (d : list (string * value))
    (key : string) (v : value) :
  (forall k0, P (k0, v)) -> Forall P d -> Forall P (dict_set d key v).
Proof.
  intros Hv. induction d as [|[k0 w] d IH]; intros Hd.
  - cbn. constructor; [apply Hv | constructor].
  - cbn [dict_set]. apply Forall_cons in Hd. destruct Hd as [H0 Hd].
    destruct (bool_decide (k0 = key)).
    + constructor; [apply Hv | exact Hd].
    + constructor; [exact H0 | now apply IH].
Qed.

Lemma match_constant_scalar (s : string) (v : value) (rest : string) :
  match_constant s = Some (v, rest) -> distinct_keys v.
Proof.
  unfold match_constant. intros H.
  repeat match type of H with
         | context [match ?x with _ => _ end] =>
             destruct x; try discriminate H
         end;
    injection H as <- _; constructor.
Qed.

Lemma match_number_scalar (s : string) (v : value) (rest : string) :
  match_number s = Some (v, rest) -> distinct_keys v.
Proof.
  unfold match_number. intros H.
  destruct (match_int s) as [[i r]|]; [|discriminate H].
  destruct (match_frac r) as [fr r1]. destruct (match_exp r1) as [ex r2].
  destruct (str_is_empty fr && str_is_empty ex);
    injection H as <- _; constructor.
Qed.

(** Whatever the scanner decodes has distinct keys in every object. *)
Lemma scan_distinct (f : nat) :
  (forall s v rest, scan_once f s = Some (v, rest) -> distinct_keys v)
  /\ (forall s acc v rest,
        parse_items f s acc = Some (v, rest) ->
        Forall distinct_keys acc -> distinct_keys v)
  /\ (forall s acc v rest,
        parse_members f s acc = Some (v, rest) ->
        NoDup (map fst acc) ->
        Forall (fun kv => distinct_keys (snd kv)) acc ->
        distinct_keys v).
Proof.
  induction f as [|f (IHs & IHi & IHm)].
  { repeat split; intros; discriminate. }
  split; [|split].
  - intros s v rest H. destruct s as [|c r]; [discriminate H|].
    rewrite scan_once_S in H.
    destruct (ascii_eqb c DQUOTE).
    { destruct (scanstring None r) as [[str r1]|]; [|discriminate H].
      injection H as <- _. unfold mk_str.
      destruct (has_surrogate str); constructor. }
    destruct (ascii_eqb c "{").
    { destruct (skip_ws r) as [|c1 r1]; [discriminate H|].
      destruct (ascii_eqb c1 "}").
      - injection H as <- _. constructor; constructor.
      - apply (IHm _ _ _ _ H); constructor. }
    destruct (ascii_eqb c "[").
    { destruct (skip_ws r) as [|c1 r1]; [discriminate H|].
      destruct (ascii_eqb c1 "]").
      - injection H as <- _. constructor; constructor.
      - apply (IHi _ _ _ _ H); constructor. }
    destruct (match_constant (String c r)) as [[v' r']|] eqn:E.
    + injection H as <- _. now apply match_constant_scalar in E.
    + now apply match_number_scalar in H.
  - intros s acc v rest H Hacc. rewrite parse_items_S in H.
    destruct (scan_once f s) as [[x r1]|] eqn:E1; [|discriminate H].
    assert (Hall : Forall distinct_keys (acc ++ [x])).
    { apply Forall_app. split; [exact Hacc|].
      constructor; [now apply (IHs _ _ _ E1) | constructor]. }
    destruct (skip_ws r1) as [|c r]; [discriminate H|].
    destruct (ascii_eqb c "]").
    + injection H as <- _. now constructor.
    + destruct (ascii_eqb c ","); [|discriminate H]. now apply (IHi _ _ _ _ H).
  - intros s acc v rest H Hnd Hacc. rewrite parse_members_S in H.
    destruct s as [|q r]; [discriminate H|].
    destruct (ascii_eqb q DQUOTE); [|discriminate H].
    destruct (scanstring None r) as [[key r1]|]; [|discriminate H].
    destruct (skip_ws r1) as [|colon r2]; [discriminate H|].
    destruct (ascii_eqb colon ":"); [|discriminate H].
    destruct (scan_once f (skip_ws r2)) as [[x r3]|] eqn:E2; [|discriminate H].
    assert (Hnd' : NoDup (map fst (dict_set acc key x)))
      by now apply dict_set_keys.
    assert (Hall : Forall (fun kv => distinct_keys (snd kv)) (dict_set acc key x)).
    { apply dict_set_forall; [|exact Hacc]. intros k0. cbn [snd].
      now apply (IHs _ _ _ E2). }
    destruct (skip_ws r3) as [|c r4]; [discriminate H|].
    destruct (ascii_eqb c "}").
    + injection H as <- _. now constructor.
    + destruct (ascii_eqb c ","); [|discriminate H]. now apply (IHm _ _ _ _ H).
Qed.

End JsonMore.
(** ** The texts the JSON scanner accepts

    Every text [loads] decodes is a JSON text in the sense of RFC 8259, with
    NaN, Infinity and -Infinity admitted as values: a body outside this
    grammar is rejected. *)

Section JsonGrammar.

Import Json Reference.

Ltac each_ascii c := destruct c as [[|] [|] [|] [|] [|] [|] [|] [|]].

















(** *** How a JSON text starts *)





End JsonGrammar.

(** * The claims of the specification *)

(** ** C1: a Record that lacks a requested field *)

(** C1, counterexample.  The ResultSet holds one Record without the
    requested field [Description].  The export does not succeed and writes no
    row with an empty cell: it raises [KeyError] for [Description] and the
    file holds the header line only.  So does cell 4 as the notebook has it,
    on a permit without [Description]. *)
Lemma C1_sparse_record_fails :
  fst sparse_export = Raise (KeyError "Description")
  /\ file_content (snd sparse_export) "out.csv"
     = Some ("permit number,description" +:+ CRLF)
  /\ fst sparse_export <> Ok tt
  /\ file_content (snd sparse_export) "out.csv"
     <> Some ("permit number,description" +:+ CRLF +:+ "A2," +:+ CRLF)
  /\ fst cell4_sparse = Raise (KeyError "Description")
  /\ file_content (snd cell4_sparse) "1000_most_recent_residential_permits.csv"
     = Some ("permit number,description,building type,completed date" +:+ CRLF).
Proof. repeat split; try (vm_compute; reflexivity); vm_compute; discriminate. Qed.

(** C1, amended.  When a Record of the ResultSet lacks a requested source
    field, the export fails: it raises [KeyError] for the first requested
    field missing from the first such Record, after the header line and one
    line for each Record before it have been written (each of these holding
    every requested field, with values whose text can be encoded); the file
    is closed with these lines in it. *)
Theorem C1_missing_field_raises (py_str : value -> string) (k : kernel)
    (path : string) (header fields : list string)
    (pre post : list record) (d : record) (key : string) :
  bp_data k = Some (VList (map VDict (pre ++ d :: post))) ->
  forallb (writable fields) pre = true ->
  first_missing fields d = Some key ->
  fst (csv_export py_str path header fields k) = Raise (KeyError key)
  /\ file_content (snd (csv_export py_str path header fields k)) path
     = Some (format_row header +:+ concat_str (map (row_of py_str fields) pre))
  /\ csv_outfile (snd (csv_export py_str path header fields k))
     = Some (closed_file path).
Proof.
  intros Hd Hpre Hmiss.
  destruct (csv_export_records py_str path header fields k _ Hd) as [Hr Hc].
  assert (Hw : writable fields d = false).
  { unfold writable. now rewrite (first_missing_lacks _ _ _ Hmiss). }
  destruct (written_prefix_stop fields pre post d Hpre Hw) as [Hp Ho].
  rewrite Hmiss in Ho.
  destruct (csv_export_frame py_str path header fields k) as (w & _ & _ & H3 & _).
  rewrite Hr, Hc, Hp, Ho, H3. now repeat split.
Qed.

Lemma C1_missing_field_raises_witness :
  fst (csv_export str_unused "out.csv" ex_header ex_fields
         (kernel_with (VList (map VDict ([ex_full] ++ ex_sparse :: [])))))
  = Raise (KeyError "Description")
  /\ file_content
       (snd (csv_export str_unused "out.csv" ex_header ex_fields
               (kernel_with (VList (map VDict ([ex_full] ++ ex_sparse :: []))))))
       "out.csv"
     = Some (format_row ex_header
             +:+ concat_str (map (row_of str_unused ex_fields) [ex_full]))
  /\ csv_outfile
       (snd (csv_export str_unused "out.csv" ex_header ex_fields
               (kernel_with (VList (map VDict ([ex_full] ++ ex_sparse :: []))))))
     = Some (closed_file "out.csv").
Proof.
  apply (C1_missing_field_raises str_unused _ "out.csv" ex_header ex_fields
           [ex_full] [] ex_sparse "Description");
    vm_compute; reflexivity.
Defined.

(** ** C2: the end-to-end scenario *)

(** C2, counterexample.  In the scenario of the specification the output
    file does not hold the three lines expected: the second Record has no
    [Description], so the file ends after the line of the first Record. *)
Lemma C2_scenario_output_differs :
  (Reference.text_lines <$> file_content (snd scenario_run) "out.csv")
  = Some ["permit number,description"; "A1,x"]
  /\ (Reference.text_lines <$> file_content (snd scenario_run) "out.csv")
     <> Some ["permit number,description"; "A1,x"; "A2,"].
Proof. split; [vm_compute; reflexivity | vm_compute; discriminate]. Qed.

(** C2, amended.  In the scenario the Query Builder requests the URL with
    the query [%24limit=2], the Fetcher decodes the two Records, and the CSV
    Exporter writes the header line and the line [A1,x], each ended by CR LF,
    then raises [KeyError] for [Description] at the second Record. *)
Theorem C2_scenario_run :
  (url <$> bp_request (snd scenario_run)) = Some scenario_url
  /\ bp_data (snd scenario_run) = Some (VList [VDict ex_full; VDict ex_sparse])
  /\ fst scenario_run = Raise (KeyError "Description")
  /\ file_content (snd scenario_run) "out.csv"
     = Some ("permit number,description" +:+ CRLF +:+ "A1,x" +:+ CRLF)
  /\ csv_outfile (snd scenario_run) = Some (closed_file "out.csv").
Proof. repeat split; vm_compute; reflexivity. Qed.

(** ** C3: a response with a non-success status *)



(** ** C4: the number of lines written *)

(** C4, counterexample.  ResultSets of one Record each: a Record without
    [Description] leaves one line (the header), with the projection of the
    scenario and with cell 4 as the notebook has it; so does a Record whose
    [PermitNum] is a string with a lone surrogate, which cannot be written;
    and a Record whose [Description] holds a line break leaves three lines.
    No file has the two lines claimed. *)
Lemma C4_line_count_differs :
  (length <$> (Reference.text_lines <$> file_content (snd sparse_export) "out.csv"))
  = Some 1%nat
  /\ (length <$> (Reference.text_lines
                    <$> file_content (snd cell4_sparse)
                          "1000_most_recent_residential_permits.csv"))
     = Some 1%nat
  /\ (length <$> (Reference.text_lines <$> file_content (snd multiline_export) "out.csv"))
     = Some 3%nat
  /\ fst multiline_export = Ok tt
  /\ fst surrogate_export = Raise UnicodeEncodeError
  /\ (length <$> (Reference.text_lines <$> file_content (snd surrogate_export) "out.csv"))
     = Some 1%nat
  /\ Json.loads (snd (surrogate_server "")) = Some (VList [VDict ex_surrogate]).
Proof. repeat split; vm_compute; reflexivity. Qed.

(** C4, amended.  For every ResultSet of N Records that each hold all the
    requested source fields, with values whose text can be encoded (no
    string with a lone surrogate), the export succeeds and writes exactly
    N+1 CSV rows, the header followed by one row per Record (the header alone
    when N = 0); the file has exactly N+1 lines when, moreover, no header
    name and no written field holds a CR or LF. *)
Theorem C4_complete_records_rows (py_str : value -> string) (k : kernel)
    (path : string) (header fields : list string) (recs : list record) :
  bp_data k = Some (VList (map VDict recs)) ->
  forallb (writable fields) recs = true ->
  fst (csv_export py_str path header fields k) = Ok tt
  /\ file_content (snd (csv_export py_str path header fields k)) path
     = Some (concat_str (map format_row (header :: map (cells_of py_str fields) recs)))
  /\ length (Reference.csv_reader
               (concat_str (map format_row (header :: map (cells_of py_str fields) recs))))
     = S (length recs)
  /\ (forallb (forallb no_newline) (header :: map (cells_of py_str fields) recs) = true ->
      length (Reference.text_lines
                (concat_str (map format_row (header :: map (cells_of py_str fields) recs))))
      = S (length recs)).
Proof.
  intros Hd Hall.
  destruct (csv_export_records py_str path header fields k _ Hd) as [Hr Hc].
  destruct (written_prefix_all fields recs Hall) as [Hp Ho].
  rewrite Hr, Hc, Hp, Ho, written_rows, csv_reader_rows.
  repeat split.
  - cbn [length]. now rewrite length_map.
  - intros Hnl. rewrite (text_lines_rows _ Hnl), !length_map. cbn [length].
    now rewrite length_map.
Qed.

Lemma C4_complete_records_rows_witness :
  fst (csv_export str_unused "out.csv" ex_header ex_fields
         (kernel_with (VList (map VDict [ex_full; ex_full])))) = Ok tt
  /\ length (Reference.text_lines
               (concat_str (map format_row
                  (ex_header :: map (cells_of str_unused ex_fields) [ex_full; ex_full]))))
     = 3%nat.
Proof.
  destruct (C4_complete_records_rows str_unused
              (kernel_with (VList (map VDict [ex_full; ex_full])))
              "out.csv" ex_header ex_fields [ex_full; ex_full]
              eq_refl ltac:(vm_compute; reflexivity)) as (H1 & _ & _ & H4).
  split; [exact H1 | exact (H4 ltac:(vm_compute; reflexivity))].
Defined.

(** ** C5: the query string of the built URL *)



(** ** C6: quoting of field values *)


(** ** C7: a body that is not JSON, or not an array of objects *)




(** ** C8: header first, then the Records in order, nothing after *)

(** C8.  For every ResultSet and every projection, the file the export
    leaves is the line of the header followed by the lines of the first [n]
    Records, in the order of the ResultSet and with the fields in the order
    of the projection, and nothing after them.  These [n] Records are
    writable (each holds the requested fields, with values whose text can be
    encoded) and the Record after them, if there is one, is not; [n] is the
    number of Records exactly when the export returns normally, as it does
    when every Record is writable.  Read back, the first row is the header
    and row [i+1] holds the projected fields of Record [i]. *)
Theorem C8_header_then_records_in_order (py_str : value -> string) (k : kernel)
    (path : string) (header fields : list string) (recs : list record) :
  bp_data k = Some (VList (map VDict recs)) ->
  exists n : nat,
    (n <= length recs)%nat
    /\ forallb (writable fields) (take n recs) = true
    /\ (forall d : record, recs !! n = Some d -> writable fields d = false)
    /\ (fst (csv_export py_str path header fields k) = Ok tt <-> n = length recs)
    /\ (forallb (writable fields) recs = true -> n = length recs)
    /\ file_content (snd (csv_export py_str path header fields k)) path
       = Some (format_row header
               +:+ concat_str (map (row_of py_str fields) (take n recs)))
    /\ Reference.csv_reader
         (format_row header
          +:+ concat_str (map (row_of py_str fields) (take n recs)))
       = header :: map (cells_of py_str fields) (take n recs)
    /\ (forall (i : nat) (d : record),
          (i < n)%nat -> recs !! i = Some d ->
          Reference.csv_reader
            (format_row header
             +:+ concat_str (map (row_of py_str fields) (take n recs)))
          !! S i = Some (cells_of py_str fields d)).
Proof.
  intros Hd.
  destruct (csv_export_records py_str path header fields k _ Hd) as [Hr Hc].
  exists (length (written_prefix fields recs)).
  rewrite <- written_prefix_take, Hr, Hc, written_rows, csv_reader_rows.
  split; [apply written_prefix_length|].
  split; [apply written_prefix_writable|].
  split; [intros d; apply written_prefix_next|].
  split.
  { split.
    - intros Ho. now rewrite (export_outcome_ok fields recs Ho).
    - intros Hn.
      assert (Hp : written_prefix fields recs = recs).
      { rewrite written_prefix_take, Hn. apply firstn_all. }
      pose proof (written_prefix_writable fields recs) as Hw. rewrite Hp in Hw.
      exact (proj2 (written_prefix_all fields recs Hw)). }
  split; [intros Hall; now rewrite (proj1 (written_prefix_all fields recs Hall))|].
  split; [reflexivity|]. split; [reflexivity|].
  intros i d Hi Hrec.
  change (map (cells_of py_str fields) (written_prefix fields recs) !! i
          = Some (cells_of py_str fields d)).
  rewrite lookup_map.
  rewrite (written_prefix_take fields recs), lookup_take_lt by exact Hi.
  now rewrite Hrec.
Qed.

Lemma C8_header_then_records_in_order_witness :
  exists n : nat,
    (n <= 2)%nat
    /\ file_content
         (snd (csv_export str_unused "out.csv" ex_header ex_fields
                 (kernel_with (VList (map VDict [ex_full; ex_sparse])))))
         "out.csv"
       = Some (format_row ex_header
               +:+ concat_str (map (row_of str_unused ex_fields)
                                 (take n [ex_full; ex_sparse]))).
Proof.
  destruct (C8_header_then_records_in_order str_unused
              (kernel_with (VList (map VDict [ex_full; ex_sparse])))
              "out.csv" ex_header ex_fields [ex_full; ex_sparse] eq_refl)
    as (n & Hn & _ & _ & _ & _ & Hc & _).
  exists n. split; [exact Hn | exact Hc].
Defined.

(** ** C9: the file object is closed on every exit path *)

(** C9.  For every kernel, whether the body of the [with] block returns or
    raises (an unbound or non-iterable [bp_data], an element that is not a
    Record, a Record without a requested field), the export ends with the
    result of the body, the file object closed with an empty buffer, and
    everything the body had written, up to the point it stopped, in the
    file. *)
Theorem C9_file_closed_on_every_exit (py_str : value -> string) (k : kernel)
    (path : string) (header fields : list string) :
  exists w : string,
    csv_outfile (snd (export_body py_str header fields (opened path k)))
    = Some (open_file path w)
    /\ fst (csv_export py_str path header fields k)
       = fst (export_body py_str header fields (opened path k))
    /\ csv_outfile (snd (csv_export py_str path header fields k))
       = Some (closed_file path)
    /\ file_content (snd (csv_export py_str path header fields k)) path = Some w.
Proof.
  destruct (csv_export_frame py_str path header fields k)
    as (w & H1 & H2 & H3 & H4 & _).
  exists w. unfold file_content. rewrite H4, lookup_insert_eq. now repeat split.
Qed.

(** ** C10: the export leaves the ResultSet as it was *)

(** C10.  For every kernel, after the export, whether it returned or raised,
    [bp_data] holds the value it held before (the same Records with the same
    fields), the response is as it was, and every file other than the output
    file has the content it had. *)
Theorem C10_export_keeps_result_set (py_str : value -> string) (k : kernel)
    (path : string) (header fields : list string) :
  bp_data (snd (csv_export py_str path header fields k)) = bp_data k
  /\ bp_request (snd (csv_export py_str path header fields k)) = bp_request k
  /\ (forall p : string, p <> path ->
        file_content (snd (csv_export py_str path header fields k)) p
        = file_content k p).
Proof.
  destruct (csv_export_frame py_str path header fields k)
    as (w & _ & _ & _ & H4 & H5 & H6).
  repeat split; [exact H5 | exact H6 |].
  intros p Hp. unfold file_content. rewrite H4. now apply lookup_insert_ne.
Qed.

Lemma C10_export_keeps_result_set_witness :
  bp_data (snd sparse_export) = Some (VList [VDict ex_sparse])
  /\ file_content (snd sparse_export) "other.csv" = None.
Proof.
  destruct (C10_export_keeps_result_set str_unused
              (kernel_with (VList [VDict ex_sparse]))
              "out.csv" ex_header ex_fields) as (H1 & _ & H3).
  split; [exact H1|].
  exact (H3 "other.csv" ltac:(discriminate)).
Defined.

(** * Further properties of the cells *)

(** ** Cell 4 on a kernel that does not hold a ResultSet *)

(** X1.  Cell 4 run before cell 3 ([bp_data] not bound): the file is created,
    the header line is written, the loop raises [NameError] for [bp_data],
    and the file is closed with the header line alone. *)
Theorem X1_export_before_fetch (py_str : value -> string) (k : kernel)
    (path : string) (header fields : list string) :
  bp_data k = None ->
  fst (csv_export py_str path header fields k) = Raise (NameError "bp_data")
  /\ file_content (snd (csv_export py_str path header fields k)) path
     = Some (format_row header)
  /\ csv_outfile (snd (csv_export py_str path header fields k))
     = Some (closed_file path).
Proof.
  intros Hd.
  apply (csv_export_outcome py_str path header fields k
           (after_header path header (opened path k))); [|reflexivity].
  rewrite (export_body_run py_str path header fields (opened path k) eq_refl).
  change (bp_data (opened path k)) with (bp_data k). now rewrite Hd.
Qed.

Lemma X1_export_before_fetch_witness :
  fst (cell4 str_unused (fresh_kernel ∅)) = Raise (NameError "bp_data")
  /\ file_content (snd (cell4 str_unused (fresh_kernel ∅)))
       "1000_most_recent_residential_permits.csv"
     = Some (format_row
               ["permit number"; "description"; "building type"; "completed date"])
  /\ csv_outfile (snd (cell4 str_unused (fresh_kernel ∅)))
     = Some (closed_file "1000_most_recent_residential_permits.csv").
Proof.
  apply (X1_export_before_fetch str_unused (fresh_kernel ∅)). reflexivity.
Defined.

(** X2.  When [bp_data] is [None], a [bool], an [int] or a [float] (a JSON
    body that is a bare scalar), cell 4 writes the header line, then the
    [for] statement raises [TypeError]: the value is not iterable.  The file
    is closed with the header line alone. *)
Theorem X2_export_scalar_not_iterable (py_str : value -> string) (k : kernel)
    (path : string) (header fields : list string) (data : value) :
  bp_data k = Some data ->
  is_scalar data = true ->
  fst (csv_export py_str path header fields k)
  = Raise (TypeError ("'" +:+ type_name data +:+ "' object is not iterable"))
  /\ file_content (snd (csv_export py_str path header fields k)) path
     = Some (format_row header)
  /\ csv_outfile (snd (csv_export py_str path header fields k))
     = Some (closed_file path).
Proof.
  intros Hd Hs.
  apply (csv_export_outcome py_str path header fields k
           (after_header path header (opened path k))); [|reflexivity].
  rewrite (export_body_run py_str path header fields (opened path k) eq_refl).
  change (bp_data (opened path k)) with (bp_data k). rewrite Hd.
  destruct data; try discriminate Hs; reflexivity.
Qed.

Lemma X2_export_scalar_not_iterable_witness :
  fst (cell4 str_unused (kernel_with VNone))
  = Raise (TypeError "'NoneType' object is not iterable")
  /\ file_content (snd (cell4 str_unused (kernel_with VNone)))
       "1000_most_recent_residential_permits.csv"
     = Some (format_row
               ["permit number"; "description"; "building type"; "completed date"])
  /\ csv_outfile (snd (cell4 str_unused (kernel_with VNone)))
     = Some (closed_file "1000_most_recent_residential_permits.csv").
Proof.
  apply (X2_export_scalar_not_iterable str_unused (kernel_with VNone) _ _ _ VNone);
    reflexivity.
Defined.

(** X3.  When [bp_data] is a non-empty [dict] (the error object a server
    sends) or a non-empty [str], the loop takes its first key or character
    as [b], and [b[...]] raises [TypeError]: string indices must be
    integers.  The file is closed with the header line alone. *)
Theorem X3_export_dict_or_str (py_str : value -> string) (k : kernel)
    (path : string) (header fields : list string) (data : value) :
  bp_data k = Some data ->
  iterates_strings data = true ->
  fields <> [] ->
  fst (csv_export py_str path header fields k)
  = Raise (TypeError "string indices must be integers")
  /\ file_content (snd (csv_export py_str path header fields k)) path
     = Some (format_row header)
  /\ csv_outfile (snd (csv_export py_str path header fields k))
     = Some (closed_file path).
Proof.
  intros Hd Hs Hf.
  assert (Hi : exists x rest,
             iter data = Ok (x :: rest)
             /\ forall f, getitem x f
                          = Raise (TypeError "string indices must be integers")).
  { assert (Hm : forall t f, getitem (mk_str t) f
                             = Raise (TypeError "string indices must be integers")).
    { intros t f. unfold mk_str. now destruct (has_surrogate t). }
    destruct data as [| | | |s|s|l|d]; try discriminate Hs.
    - destruct s as [|c r]; [discriminate Hs|].
      cbn [iter]. unfold str_chars. cbn [String.length str_chars_fuel].
      destruct (take_continuation r) as [t rest]. cbn [map]. eauto.
    - destruct s as [|c r]; [discriminate Hs|].
      cbn [iter]. unfold str_chars. cbn [String.length str_chars_fuel].
      destruct (take_continuation r) as [t rest]. cbn [map]. eauto.
    - destruct d as [|[key v] d]; [discriminate Hs|]. cbn [iter map fst]. eauto. }
  destruct Hi as (x & rest & Hi & Hx).
  destruct fields as [|f fs]; [now destruct Hf|].
  apply (csv_export_outcome py_str path header (f :: fs) k
           (set_var_b x (after_header path header (opened path k))));
    [|reflexivity].
  rewrite (export_body_run py_str path header (f :: fs) (opened path k) eq_refl).
  change (bp_data (opened path k)) with (bp_data k). rewrite Hd, Hi.
  rewrite for_each_cons.
  rewrite (loop_body_raise py_str (f :: fs) x
             (TypeError "string indices must be integers")); [reflexivity|].
  cbn [map eval_tuple]. now rewrite Hx.
Qed.

Lemma X3_export_dict_or_str_witness :
  fst (cell4 str_unused
         (kernel_with (VDict [("error", VBool true); ("message", VStr "Not found")])))
  = Raise (TypeError "string indices must be integers")
  /\ file_content
       (snd (cell4 str_unused
               (kernel_with (VDict [("error", VBool true); ("message", VStr "Not found")]))))
       "1000_most_recent_residential_permits.csv"
     = Some (format_row
               ["permit number"; "description"; "building type"; "completed date"])
  /\ csv_outfile
       (snd (cell4 str_unused
               (kernel_with (VDict [("error", VBool true); ("message", VStr "Not found")]))))
     = Some (closed_file "1000_most_recent_residential_permits.csv").
Proof.
  apply (X3_export_dict_or_str str_unused
           (kernel_with (VDict [("error", VBool true); ("message", VStr "Not found")]))
           _ _ _ (VDict [("error", VBool true); ("message", VStr "Not found")]));
    [reflexivity | reflexivity | discriminate].
Defined.

(** X4.  When the list holds an element that is not an object, after Records
    that are all writable (each holds the requested fields, with values
    whose text can be encoded), the export writes the header and the lines
    of these Records and then raises the [TypeError] of the subscription of
    that element; nothing is written for it or after it. *)
Theorem X4_export_stops_at_non_record (py_str : value -> string) (k : kernel)
    (path : string) (header fields : list string)
    (pre : list record) (x : value) (post : list value) (f : string) :
  bp_data k = Some (VList (map VDict pre ++ x :: post)) ->
  forallb (writable fields) pre = true ->
  is_dict x = false ->
  head fields = Some f ->
  exists msg : string,
    getitem x f = Raise (TypeError msg)
    /\ fst (csv_export py_str path header fields k) = Raise (TypeError msg)
    /\ file_content (snd (csv_export py_str path header fields k)) path
       = Some (format_row header +:+ concat_str (map (row_of py_str fields) pre))
    /\ csv_outfile (snd (csv_export py_str path header fields k))
       = Some (closed_file path).
Proof.
  intros Hd Hpre Hx Hf.
  destruct fields as [|f0 fs]; [discriminate Hf|]. injection Hf as ->.
  assert (Hg : exists msg, getitem x f = Raise (TypeError msg)).
  { destruct x; try discriminate Hx; cbn; eauto. }
  destruct Hg as (msg & Hg). exists msg. split; [exact Hg|].
  destruct (loop_complete py_str path (f :: fs) pre
              (after_header path header (opened path k)) (format_row header)
              eq_refl Hpre) as (k1 & Hloop & Hbuf).
  apply (csv_export_outcome py_str path header (f :: fs) k (set_var_b x k1)).
  - rewrite (export_body_run py_str path header (f :: fs) (opened path k) eq_refl).
    change (bp_data (opened path k)) with (bp_data k). rewrite Hd. cbn [iter].
    rewrite (for_each_app_ok _ _ _ _ _ Hloop), for_each_cons.
    rewrite (loop_body_raise py_str (f :: fs) x (TypeError msg)); [reflexivity|].
    cbn [map eval_tuple]. now rewrite Hg.
  - exact Hbuf.
Qed.

Lemma X4_export_stops_at_non_record_witness :
  exists msg : string,
    getitem (VStr "oops") "PermitNum" = Raise (TypeError msg)
    /\ fst (csv_export str_unused "out.csv" ex_header ex_fields
              (kernel_with (VList (map VDict [ex_full] ++ VStr "oops" :: []))))
       = Raise (TypeError msg)
    /\ file_content
         (snd (csv_export str_unused "out.csv" ex_header ex_fields
                 (kernel_with (VList (map VDict [ex_full] ++ VStr "oops" :: [])))))
         "out.csv"
       = Some (format_row ex_header
               +:+ concat_str (map (row_of str_unused ex_fields) [ex_full]))
    /\ csv_outfile
         (snd (csv_export str_unused "out.csv" ex_header ex_fields
                 (kernel_with (VList (map VDict [ex_full] ++ VStr "oops" :: [])))))
       = Some (closed_file "out.csv").
Proof.
  apply (X4_export_stops_at_non_record str_unused _ "out.csv" ex_header ex_fields
           [ex_full] (VStr "oops") [] "PermitNum");
    vm_compute; reflexivity.
Defined.

(** ** Cell 4 run again, and on a disk that already holds the file *)

(** X5.  The outcome of the export and the content of the file it leaves
    depend on [bp_data] alone: what the file held before (mode 'w' truncates
    it), what other names are bound and what other files exist make no
    difference. *)
Theorem X5_export_depends_on_bp_data_only (py_str : value -> string)
    (k1 k2 : kernel) (path : string) (header fields : list string) :
  bp_data k1 = bp_data k2 ->
  fst (csv_export py_str path header fields k1)
  = fst (csv_export py_str path header fields k2)
  /\ file_content (snd (csv_export py_str path header fields k1)) path
     = file_content (snd (csv_export py_str path header fields k2)) path.
Proof. apply csv_export_same. Qed.

Lemma X5_export_depends_on_bp_data_only_witness :
  fst (csv_export str_unused "out.csv" ex_header ex_fields
         (kernel_with_file (VList [VDict ex_full]) "out.csv" "old content"))
  = fst (csv_export str_unused "out.csv" ex_header ex_fields
           (kernel_with (VList [VDict ex_full])))
  /\ file_content
       (snd (csv_export str_unused "out.csv" ex_header ex_fields
               (kernel_with_file (VList [VDict ex_full]) "out.csv" "old content")))
       "out.csv"
     = file_content
         (snd (csv_export str_unused "out.csv" ex_header ex_fields
                 (kernel_with (VList [VDict ex_full]))))
         "out.csv".
Proof.
  apply (X5_export_depends_on_bp_data_only str_unused
           (kernel_with_file (VList [VDict ex_full]) "out.csv" "old content")
           (kernel_with (VList [VDict ex_full]))).
  reflexivity.
Defined.

(** X6.  Running cell 4 a second time changes nothing: it ends as the first
    run did and leaves the same files and the same closed file object. *)
Theorem X6_export_twice (py_str : value -> string) (k : kernel)
    (path : string) (header fields : list string) :
  fst (csv_export py_str path header fields
         (snd (csv_export py_str path header fields k)))
  = fst (csv_export py_str path header fields k)
  /\ disk (snd (csv_export py_str path header fields
                  (snd (csv_export py_str path header fields k))))
     = disk (snd (csv_export py_str path header fields k))
  /\ csv_outfile (snd (csv_export py_str path header fields
                         (snd (csv_export py_str path header fields k))))
     = csv_outfile (snd (csv_export py_str path header fields k)).
Proof.
  destruct (csv_export_frame py_str path header fields k)
    as (w & _ & _ & A3 & A4 & A5 & _).
  destruct (csv_export_frame py_str path header fields
              (snd (csv_export py_str path header fields k)))
    as (w' & _ & _ & B3 & B4 & _).
  destruct (csv_export_same py_str path header fields
              (snd (csv_export py_str path header fields k)) k A5) as [Hr Hc].
  unfold file_content in Hc. rewrite B4, A4, !lookup_insert_eq in Hc.
  injection Hc as ->.
  rewrite Hr, B4, A4, B3, A3, insert_insert_eq. now repeat split.
Qed.

(** ** Cells 3 and 4 together *)

(** X7.  When the request is answered and the body decodes to an array of
    objects that are all writable (each holds the requested fields, with
    values whose text can be encoded), whatever the status code, cells 3 and
    4 run to the end: [bp_data] is the decoded list and the file is the header
    line followed by one line per Record, in order.  When one of the objects
    holds a lone surrogate in a requested field, as [json] decodes it from an
    escape, the run ends in cell 4 with [UnicodeEncodeError] instead. *)
Theorem X7_fetch_then_export (py_str : value -> string)
    (server : string -> Z * string) (endpoint : string)
    (params : list (string * string)) (path : string)
    (header fields : list string) (k : kernel) (r : Response)
    (recs : list record) :
  requests_get server endpoint params = Ok r ->
  Json.loads (text r) = Some (VList (map VDict recs)) ->
  forallb (writable fields) recs = true ->
  fst (run_all py_str server endpoint params path header fields k) = Ok tt
  /\ bp_data (snd (run_all py_str server endpoint params path header fields k))
     = Some (VList (map VDict recs))
  /\ file_content
       (snd (run_all py_str server endpoint params path header fields k)) path
     = Some (format_row header +:+ concat_str (map (row_of py_str fields) recs)).
Proof.
  intros Hr Hj Hall. rewrite run_all_run, run_cell3_run, Hr, Hj.
  cbn [getslice].
  set (k1 := set_bp_data _ _).
  assert (Hd : bp_data k1 = Some (VList (map VDict recs))) by reflexivity.
  destruct (csv_export_records py_str path header fields k1 recs Hd) as [Ho Hc].
  destruct (written_prefix_all fields recs Hall) as [Hp Hok].
  destruct (csv_export_frame py_str path header fields k1)
    as (w & _ & _ & _ & _ & H5 & _).
  rewrite Ho, Hc, Hp, Hok, H5. now repeat split.
Qed.

Lemma X7_fetch_then_export_witness :
  (fst (run_all str_unused not_found_server scenario_endpoint scenario_params
          "out.csv" ex_header ex_fields (fresh_kernel ∅)) = Ok tt
   /\ bp_data
        (snd (run_all str_unused not_found_server scenario_endpoint scenario_params
                "out.csv" ex_header ex_fields (fresh_kernel ∅)))
      = Some (VList (map VDict [ex_full]))
   /\ file_content
        (snd (run_all str_unused not_found_server scenario_endpoint scenario_params
                "out.csv" ex_header ex_fields (fresh_kernel ∅)))
        "out.csv"
      = Some (format_row ex_header
              +:+ concat_str (map (row_of str_unused ex_fields) [ex_full])))
  /\ fst surrogate_run = Raise UnicodeEncodeError
  /\ file_content (snd surrogate_run) "out.csv" = Some (format_row ex_header).
Proof.
  split.
  - apply (X7_fetch_then_export str_unused not_found_server scenario_endpoint
             scenario_params "out.csv" ex_header ex_fields (fresh_kernel ∅)
             {| url := scenario_url; status_code := 404;
                text := snd (not_found_server scenario_url) |}
             [ex_full]); vm_compute; reflexivity.
  - split; vm_compute; reflexivity.
Defined.

(** X8.  When cell 3 is run again, the request is answered and the decoder
    rejects the body of the new answer, [bp_data] keeps the value of the
    earlier run, and cell 4 run afterwards exports that earlier value: same
    outcome, same file content as without the failed request. *)
Theorem X8_failed_fetch_keeps_old_data (py_str : value -> string)
    (server : string -> Z * string) (endpoint : string)
    (params : list (string * string)) (path : string)
    (header fields : list string) (k : kernel) (r : Response) :
  requests_get server endpoint params = Ok r ->
  Json.loads (text r) = None ->
  fst (fetch server endpoint params k) = Raise JSONDecodeError
  /\ bp_data (snd (fetch server endpoint params k)) = bp_data k
  /\ fst (csv_export py_str path header fields (snd (fetch server endpoint params k)))
     = fst (csv_export py_str path header fields k)
  /\ file_content
       (snd (csv_export py_str path header fields
               (snd (fetch server endpoint params k)))) path
     = file_content (snd (csv_export py_str path header fields k)) path.
Proof.
  intros Hr Hj.
  assert (Hd : bp_data (snd (fetch server endpoint params k)) = bp_data k).
  { now rewrite fetch_run, Hr, Hj. }
  destruct (csv_export_same py_str path header fields _ _ Hd) as [Ho Hc].
  rewrite Ho, Hc, Hd. rewrite fetch_run, Hr, Hj.
  now repeat split.
Qed.

Lemma X8_failed_fetch_keeps_old_data_witness :
  fst (fetch html_server scenario_endpoint scenario_params
         (kernel_with (VList [VDict ex_full]))) = Raise JSONDecodeError
  /\ file_content
       (snd (csv_export str_unused "out.csv" ex_header ex_fields
               (snd (fetch html_server scenario_endpoint scenario_params
                       (kernel_with (VList [VDict ex_full])))))) "out.csv"
     = file_content
         (snd (csv_export str_unused "out.csv" ex_header ex_fields
                 (kernel_with (VList [VDict ex_full])))) "out.csv".
Proof.
  destruct (X8_failed_fetch_keeps_old_data str_unused html_server
              scenario_endpoint scenario_params "out.csv" ex_header ex_fields
              (kernel_with (VList [VDict ex_full]))
              {| url := scenario_url; status_code := 200;
                 text := snd (html_server scenario_url) |}
              ltac:(vm_compute; reflexivity) ltac:(vm_compute; reflexivity))
    as (H1 & _ & _ & H4).
  split; [exact H1 | exact H4].
Defined.


(** ** The URL of a request *)



(** X10.  The way of cell 1: the query is written by hand as [name=value]
    after the URL and no parameter mapping is passed.  For an http or https
    URL of plain characters that requests leaves as it is, when the name
    holds no ampersand, plus, percent, number or equals sign and the value no
    ampersand, plus, percent or number sign, the query of the URL requested
    decodes to exactly that name and value (spaces, quotes and parentheses
    included); nothing is promised for the characters excluded. *)
Theorem X10_hand_written_query (base name value : string) :
  Url.prepare_url base [] = Ok base ->
  url_plain base = true ->
  is_http_url base = true ->
  str_forallb hand_name_char name = true ->
  str_forallb hand_value_char value = true ->
  exists u : string,
    Url.prepare_url (base +:+ "?" +:+ name +:+ "=" +:+ value) [] = Ok u
    /\ Reference.parse_qsl (Url.url_query u) = [(name, value)].
Proof.
  intros H0 Hb Hh Hn Hv.
  pose proof (hand_name_value name Hn) as Hnv.
  assert (Hq : str_forallb hand_value_char (name +:+ "=" +:+ value) = true).
  { rewrite !str_forallb_app, Hnv, Hv. reflexivity. }
  destruct (hand_quoted _ Hq) as (Q1 & Q2 & Q3 & _).
  destruct (hand_quoted _ Hnv) as (N1 & _ & _ & N4).
  destruct (hand_quoted _ Hv) as (V1 & _ & _ & _).
  pose proof (norm_query_plain _ (hand_value_no_percent _ Hq)) as Hnorm.
  assert (Hsplit : Url.quote query_keep (name +:+ "=" +:+ value)
                   = Url.quote query_keep name +:+ "="
                     +:+ Url.quote query_keep value).
  { now rewrite !quote_app. }
  exists (base +:+ "?" +:+ norm_query (name +:+ "=" +:+ value)).
  split.
  - rewrite (prepare_url_query base (name +:+ "=" +:+ value) [] H0 Hb Hh).
    + now rewrite str_app_nil_r.
    + now apply hand_value_no_hash.
    + rewrite str_is_empty_app. cbn [String.append str_is_empty].
      apply andb_false_r.
    + now rewrite Hnorm.
    + rewrite Hnorm, Hsplit, str_is_empty_app. cbn [String.append str_is_empty].
      apply andb_false_r.
  - rewrite url_query_plain
      by (exact Hb || (rewrite Hnorm, str_mem_existsb; exact Q2)).
    rewrite Hnorm. unfold Reference.parse_qsl.
    rewrite split_none by exact Q1.
    cbn [omap list_omap]. rewrite Hsplit, str_is_empty_app.
    cbn [String.append str_is_empty].
    rewrite andb_false_r, (partition_app "=" _ _ (N4 Hn)).
    change (default "" (Some ?x)) with x.
    rewrite (unquote_plus_hand name Hnv).
    now rewrite (unquote_plus_hand value Hv).
Qed.

Lemma X10_hand_written_query_witness :
  exists u : string,
    Url.prepare_url test_url [] = Ok u
    /\ Reference.parse_qsl (Url.url_query u)
       = [("$where", "(PermitNum='6531736-PH')")].
Proof.
  apply (X10_hand_written_query
           "https://data.seattle.gov/resource/76t5-zqzr.json"
           "$where" "(PermitNum='6531736-PH')");
    vm_compute; reflexivity.
Defined.

(** ** Cell 3 with its checks *)





(** ** The decoded ResultSet *)

(** X13.  Every value [json] returns has pairwise distinct keys in each of
    its objects, at any depth (a key repeated in the body is kept once): the
    Records that cell 4 subscripts are mappings. *)
Theorem X13_decoded_objects_have_distinct_keys (r : Response) (v : value) :
  Response_json r = Ok v -> distinct_keys v.
Proof.
  unfold Response_json, Json.loads. intros H.
  destruct (Json.scan_once _ _) as [[x rest]|] eqn:E; [|discriminate H].
  destruct (str_is_empty _); [|discriminate H].
  injection H as <-. exact (proj1 (scan_distinct _) _ _ _ E).
Qed.

Lemma X13_decoded_objects_have_distinct_keys_witness :
  distinct_keys (VList [VDict [("a", VInt 3); ("b", VInt 2)]]).
Proof.
  apply (X13_decoded_objects_have_distinct_keys
           {| url := ""; status_code := 200;
              text := dq "[{'a':1,'b':2,'a':3}]" |}).
  reflexivity.
Defined.


(** ** A request that is not sent *)

(** X14.  When requests refuses to send the request (a URL without scheme or
    without host, or a scheme other than http and https), [requests.get]
    raises before anything is bound: cell 3 ends with that exception, shows
    nothing and leaves the kernel as it was, and a run of cells 3 and 4 stops
    there, with no file created or changed. *)
Theorem X14_refused_request_binds_nothing (py_str : value -> string)
    (server : string -> Z * string) (endpoint : string)
    (params : list (string * string)) (path : string)
    (header fields : list string) (k : kernel) (e : exn) :
  requests_get server endpoint params = Raise e ->
  request_refused e = true ->
  fetch server endpoint params k = (Raise e, k)
  /\ fetch_and_show server endpoint params k = (Raise e, k, [])
  /\ run_all py_str server endpoint params path header fields k = (Raise e, k).
Proof.
  intros Hr _.
  assert (Hf : fetch server endpoint params k = (Raise e, k)).
  { now rewrite fetch_run, Hr. }
  split; [exact Hf|]. split.
  - unfold fetch_and_show. now rewrite Hf.
  - now rewrite run_all_run, run_cell3_run, Hr.
Qed.

Lemma X14_refused_request_binds_nothing_witness :
  requests_get scenario_server "example.test/resource/abc.json" scenario_params
  = Raise MissingSchema
  /\ requests_get scenario_server "mailto:x" scenario_params
     = Raise InvalidSchema
  /\ requests_get scenario_server "http://" scenario_params = Raise InvalidURL
  /\ fetch scenario_server "example.test/resource/abc.json" scenario_params
       (fresh_kernel ∅)
     = (Raise MissingSchema, fresh_kernel ∅)
  /\ run_all str_unused scenario_server "example.test/resource/abc.json"
       scenario_params "out.csv" ex_header ex_fields (fresh_kernel ∅)
     = (Raise MissingSchema, fresh_kernel ∅).
Proof.
  destruct (X14_refused_request_binds_nothing str_unused scenario_server
              "example.test/resource/abc.json" scenario_params "out.csv"
              ex_header ex_fields (fresh_kernel ∅) MissingSchema
              ltac:(vm_compute; reflexivity) eq_refl) as (H1 & _ & H3).
  do 3 (split; [vm_compute; reflexivity|]).
  split; [exact H1 | exact H3].
Defined.
